(** * Failover relay of [server.js]: host ordering, pinning and the two proxies

    A shallow embedding of [server.js]: the fixed upstream host list, the
    process-wide pinned host, the two failover loops
    ([fetchViaAvailableBase], [postViaAvailableBase]), the host ordering
    ([getBasesToTry]) and the request handler passed to [createServer].

    What belongs to the JavaScript platform and not to the repository
    ([JSON.parse], [JSON.stringify], [encodeURIComponent], [path], [fs]) is
    taken as a parameter, bundled in the class [Platform].  The upstream hosts
    are an oracle from the outbound request to what the transport yields. *)

From Stdlib Require Import String Ascii List ZArith Bool Lia DecimalString.
Import ListNotations.

Open Scope string_scope.
Open Scope list_scope.
Open Scope Z_scope.

(* ================================================================== *)
(** ** JavaScript values *)

(** A JavaScript number: an IEEE double, by its shape.  [Finite neg m e] is
    [(-1)^neg * m * 2^e]. *)
Inductive number : Type :=
| NaN
| Infinity (neg : bool)
| Zero (neg : bool)
| Finite (neg : bool) (m : positive) (e : Z).

Definition number_of_Z (z : Z) : number :=
  match z with
  | Z0 => Zero false
  | Zpos p => Finite false p 0
  | Zneg p => Finite true p 0
  end.

(** The values [JSON.parse] produces.  An object is the ordered list of its
    own properties, a key at most once. *)
#[local] Set Warnings "-register-all".
Inductive json : Type :=
| JNull
| JBool (b : bool)
| JNum (n : number)
| JStr (s : string)
| JArr (items : list json)
| JObj (props : list (string * json)).

#[local] Set Warnings "+register-all".

(** A value read from a property or a binding: [None] is [undefined]. *)
Definition jsval : Type := option json.

(** ToBoolean. *)
Definition truthy (v : jsval) : bool :=
  match v with
  | None => false
  | Some JNull => false
  | Some (JBool b) => b
  | Some (JNum NaN) => false
  | Some (JNum (Zero _)) => false
  | Some (JNum _) => true
  | Some (JStr s) => negb (s =? "")%string
  | Some (JArr _) => true
  | Some (JObj _) => true
  end.

(** [Array.isArray]. *)
Definition isArray (v : jsval) : bool :=
  match v with
  | Some (JArr _) => true
  | _ => false
  end.

Fixpoint assoc {A : Type} (k : string) (l : list (string * A)) : option A :=
  match l with
  | [] => None
  | (k', v) :: rest => if (k' =? k)%string then Some v else assoc k rest
  end.

(** [o[k]] for the keys this program reads, none of which a prototype
    defines: the own property of an object, [undefined] on anything else. *)
Definition getProp (o : json) (k : string) : jsval :=
  match o with
  | JObj props => assoc k props
  | _ => None
  end.

(** Writing a property of an object literal or spread: an existing key keeps
    its place and takes the new value, a new key goes last. *)
Fixpoint setProp {A : Type} (k : string) (v : A) (l : list (string * A))
  : list (string * A) :=
  match l with
  | [] => [(k, v)]
  | (k', v') :: rest =>
      if (k' =? k)%string then (k, v) :: rest else (k', v') :: setProp k v rest
  end.

(** A property whose value is [undefined] is left out by [JSON.stringify];
    object literals of optional values are built with [optProp]. *)
Definition optProp (k : string) (v : jsval) : list (string * json) :=
  match v with
  | Some j => [(k, j)]
  | None => []
  end.

(* ================================================================== *)
(** ** The platform *)

(** [fs.stat] on a path. *)
Inductive statResult : Type :=
| StatThrows
| StatOk (isFile : bool).

Class Platform : Type := {
  (** [JSON.parse]; [None] when it throws a SyntaxError. *)
  JSON_parse : string -> option json;
  (** [JSON.stringify] of a JSON value. *)
  JSON_stringify : json -> string;
  (** [encodeURIComponent]; [None] when it throws a URIError, with the
      message of the error. *)
  encodeURIComponent : jsval -> option string;
  URIError_message : string;
  (** [path.join(__dirname, p)] and [path.extname]. *)
  path_join_dirname : string -> string;
  path_extname : string -> string;
  (** [fs.stat] and [fs.readFile] ([None] when it throws). *)
  fs_stat : string -> statResult;
  fs_readFile : string -> option string
}.

(* ================================================================== *)
(** ** Process state and the upstream hosts *)

Definition BASE_URLS : list string :=
  [ "https://api.sleekflow.io";
    "https://sleekflow-core-app-eus-production.azurewebsites.net";
    "https://sleekflow-core-app-seas-production.azurewebsites.net";
    "https://sleekflow-core-app-weu-production.azurewebsites.net";
    "https://sleekflow-core-app-uaen-production.azurewebsites.net" ].

(** An outbound request as a proxy makes it: the method, the url it built
    ([upstreamUrl]), the headers and the body.  What [new URL] and the
    transport make of the url string (whether it parses, the host and the
    path they read off it) is on the side of the oracle below. *)
Record outReq : Type := mkOutReq {
  outMethod : string;
  outUrl : string;
  outHeaders : list (string * jsval);
  outBody : string
}.

(** What comes of one outbound request: a response with its status code
    and its body as text (as [Buffer.toString] and [resp.text()] decode it),
    or an error with its message, be it thrown by [new URL], by the
    transport or while the body is read. *)
Inductive netOutcome : Type :=
| Responded (statusCode : Z) (body : string)
| Failed (message : string).

(** The upstream hosts during one relay call.  A call sends at most one
    request to a host, so a function of the request says all there is. *)
Definition network : Type := outReq -> netOutcome.

(** The module-level state: [pinnedBaseUrl], and what the process did to the
    outside (requests sent upstream, lines on the console). *)
Record state : Type := mkState {
  pinnedBaseUrl : option string;
  outbound : list outReq;
  console : list string
}.

(** [let pinnedBaseUrl = null], nothing sent, nothing logged. *)
Definition initialState : state := mkState None [] [].

(* ================================================================== *)
(** ** Computations: state and exceptions *)

Inductive result (A : Type) : Type :=
| Ok (a : A)
| Thrown (err : string).
Arguments Ok {A} a.
Arguments Thrown {A} err.

Definition M (A : Type) : Type := state -> result A * state.

Definition ret {A : Type} (a : A) : M A := fun s => (Ok a, s).

Definition bind {A B : Type} (m : M A) (k : A -> M B) : M B :=
  fun s =>
    match m s with
    | (Ok a, s') => k a s'
    | (Thrown e, s') => (Thrown e, s')
    end.

Definition throw {A : Type} (e : string) : M A := fun s => (Thrown e, s).

(** [try { m } catch (err) { h(err) }]. *)
Definition tryCatch {A : Type} (m : M A) (h : string -> M A) : M A :=
  fun s =>
    match m s with
    | (Ok a, s') => (Ok a, s')
    | (Thrown e, s') => h e s'
    end.

Declare Scope relay_scope.
Delimit Scope relay_scope with relay.
Notation "x <- m ;; k" := (bind m (fun x => k))
  (at level 61, m at next level, right associativity) : relay_scope.
Notation "m ;;; k" := (bind m (fun _ => k))
  (at level 61, right associativity) : relay_scope.
Open Scope relay_scope.

(** [pinnedBaseUrl = base]. *)
Definition setPinned (base : string) : M unit :=
  fun s => (Ok tt, mkState (Some base) (outbound s) (console s)).

(** [console.error(err)]. *)
Definition consoleError (err : string) : M unit :=
  fun s => (Ok tt, mkState (pinnedBaseUrl s) (outbound s) (console s ++ [err])).

(** Handing a request to the transport and awaiting its outcome. *)
Definition send (net : network) (r : outReq) : M netOutcome :=
  fun s => (Ok (net r), mkState (pinnedBaseUrl s) (outbound s ++ [r]) (console s)).

(* ================================================================== *)
(** ** Host ordering *)

(** [getBasesToTry()], reading [pinnedBaseUrl] from the state.  The test
    [!pinnedBaseUrl] holds of [null] and of the empty string. *)
Definition getBasesToTry (s : state) : list string :=
  match pinnedBaseUrl s with
  | None => BASE_URLS
  | Some pinned =>
      if (pinned =? "")%string then BASE_URLS
      else pinned :: filter (fun base => negb (base =? pinned)%string) BASE_URLS
  end.

(* ================================================================== *)
(** ** The two transports *)

(** What a relay call hands back: [{ status, body }]. *)
Record upstreamResponse : Type := mkUpstream {
  status : Z;
  body : string
}.

(** [s.replace(/\/+$/, "")]: the string without its trailing slashes. *)
Fixpoint stripTrailingSlashes (s : string) : string :=
  match s with
  | EmptyString => EmptyString
  | String c rest =>
      let rest' := stripTrailingSlashes rest in
      if Ascii.eqb c "/"%char && (rest' =? "")%string then EmptyString
      else String c rest'
  end.

(** [upstreamRes.statusCode || 500]. *)
Definition orStatus500 (statusCode : Z) : Z :=
  if statusCode =? 0 then 500 else statusCode.

(** [bodyObj || {}] and [payload || {}]. *)
Definition orEmptyObject (v : json) : json :=
  if truthy (Some v) then v else JObj [].

Section Relay.

Context {platform : Platform}.

(** [proxyGetWithBody(urlString, headers, bodyObj)]: a GET that carries a
    body.  The promise it returns resolves with [{ status, body }] or
    rejects with the transport's error; awaiting a rejected promise throws.
    The url goes to the oracle as the string it was given: [new URL] and
    the options read off it (hostname, pathname and search, port) are on
    the oracle's side, which answers a string that does not parse with the
    error [new URL] throws. *)
Definition proxyGetWithBody (net : network) (urlString : string)
    (headers : list (string * jsval)) (bodyObj : json) : M upstreamResponse :=
  let payload := JSON_stringify (orEmptyObject bodyObj) in
  let headers' :=
    setProp "Content-Length"
      (Some (JNum (number_of_Z (Z.of_nat (String.length payload)))))
      (setProp "Content-Type" (Some (JStr "application/json")) headers) in
  outcome <- send net (mkOutReq "GET" urlString headers' payload) ;;
  match outcome with
  | Responded statusCode body =>
      ret (mkUpstream (orStatus500 statusCode) body)
  | Failed message => throw message
  end.

(** [fetch(url, { method: "POST", headers, body })] followed by
    [resp.text()]: the status and the text of the response, or a throw. *)
Definition fetchText (net : network) (url : string)
    (headers : list (string * jsval)) (payload : string) : M upstreamResponse :=
  outcome <- send net (mkOutReq "POST" url headers payload) ;;
  match outcome with
  | Responded statusCode text => ret (mkUpstream statusCode text)
  | Failed message => throw message
  end.

(** [resp.ok] of a fetch response. *)
Definition ok (resp : upstreamResponse) : bool :=
  (200 <=? status resp) && (status resp <=? 299).

(* ================================================================== *)
(** ** The failover loops *)

(** An attempt record: [{ base, status, body }] or [{ base, error }]. *)
Definition attemptRejected (base : string) (resp : upstreamResponse) : json :=
  JObj [ ("base", JStr base);
         ("status", JNum (number_of_Z (status resp)));
         ("body", JStr (body resp)) ].

Definition attemptError (base message : string) : json :=
  JObj [ ("base", JStr base); ("error", JStr message) ].

(** [{ error: "All base URLs failed", attempts: errors }]. *)
Definition failureMessage (errors : list json) : json :=
  JObj [ ("error", JStr "All base URLs failed"); ("attempts", JArr errors) ].

Definition allFailed (errors : list json) : upstreamResponse :=
  mkUpstream 502 (JSON_stringify (failureMessage errors)).

(** How one turn of a loop ends: a [return] out of the function, or the
    next turn with the attempts so far. *)
Inductive turn : Type :=
| Return (resp : upstreamResponse)
| Next (errors : list json).

(** The upstream URL of a record fetch; [encodeURIComponent] may throw. *)
Definition recordsUrl (base : string) (objectKey : jsval) : M string :=
  match encodeURIComponent objectKey with
  | Some key =>
      ret (stripTrailingSlashes base ++ "/api/customObjects/" ++ key
             ++ "/records?limit=1000")%string
  | None => throw URIError_message
  end.

Definition recordsHeaders (apiKey : jsval) : list (string * jsval) :=
  [ ("Accept", Some (JStr "application/json"));
    ("X-Sleekflow-Api-Key", apiKey);
    ("Content-Type", Some (JStr "application/json")) ].

(** The [for (const base of basesToTry)] loop of [fetchViaAvailableBase]. *)
Fixpoint fetchLoop (net : network) (apiKey objectKey continuationToken : jsval)
    (basesToTry : list string) (errors : list json) : M upstreamResponse :=
  match basesToTry with
  | [] => ret (allFailed errors)
  | base :: rest =>
      upstreamUrl <- recordsUrl base objectKey ;;
      t <- tryCatch
             (resp <- proxyGetWithBody net upstreamUrl (recordsHeaders apiKey)
                        (JObj (optProp "continuationToken" continuationToken)) ;;
              if status resp =? 200 then
                setPinned base ;;; ret (Return resp)
              else ret (Next (errors ++ [attemptRejected base resp])))
             (fun message => ret (Next (errors ++ [attemptError base message]))) ;;
      match t with
      | Return resp => ret resp
      | Next errors' =>
          fetchLoop net apiKey objectKey continuationToken rest errors'
      end
  end.

Definition fetchViaAvailableBase (net : network)
    (apiKey objectKey continuationToken : jsval) : M upstreamResponse :=
  fun s =>
    fetchLoop net apiKey objectKey continuationToken (getBasesToTry s) [] s.

Definition contactListUrl (base : string) : string :=
  (stripTrailingSlashes base ++ "/api/contact/list")%string.

Definition contactListHeaders (apiKey : jsval) : list (string * jsval) :=
  [ ("Accept", Some (JStr "application/json"));
    ("Content-Type", Some (JStr "application/json"));
    ("X-Sleekflow-Api-Key", apiKey) ].

(** The [for (const base of basesToTry)] loop of [postViaAvailableBase]. *)
Fixpoint postLoop (net : network) (apiKey : jsval) (payload : json)
    (basesToTry : list string) (errors : list json) : M upstreamResponse :=
  match basesToTry with
  | [] => ret (allFailed errors)
  | base :: rest =>
      let upstreamUrl := contactListUrl base in
      t <- tryCatch
             (resp <- fetchText net upstreamUrl (contactListHeaders apiKey)
                        (JSON_stringify (orEmptyObject payload)) ;;
              if ok resp then
                setPinned base ;;; ret (Return resp)
              else ret (Next (errors ++ [attemptRejected base resp])))
             (fun message => ret (Next (errors ++ [attemptError base message]))) ;;
      match t with
      | Return resp => ret resp
      | Next errors' => postLoop net apiKey payload rest errors'
      end
  end.

Definition postViaAvailableBase (net : network) (apiKey : jsval)
    (payload : json) : M upstreamResponse :=
  fun s => postLoop net apiKey payload (getBasesToTry s) [] s.

End Relay.

(* ================================================================== *)
(** ** The request handler *)

(** An incoming request: its method, its url, and its body as the chunks
    [for await (const chunk of req)] collects. *)
Record request : Type := mkRequest {
  reqMethod : string;
  reqUrl : string;
  reqChunks : list string
}.

(** What the handler wrote to [res]: the status and headers of
    [res.writeHead] (after the [res.setHeader] calls) and the body passed to
    [res.end].  What of the body reaches the client is [receivedBody]. *)
Record response : Type := mkResponse {
  resStatus : Z;
  resHeaders : list (string * string);
  resBody : string
}.

Definition CONTENT_TYPES : list (string * string) :=
  [ (".html", "text/html; charset=utf-8");
    (".css", "text/css; charset=utf-8");
    (".js", "application/javascript; charset=utf-8");
    (".json", "application/json; charset=utf-8") ].

(** The three [res.setHeader] calls every response starts with. *)
Definition corsHeaders : list (string * string) :=
  [ ("Access-Control-Allow-Origin", "*");
    ("Access-Control-Allow-Methods", "GET,POST,OPTIONS");
    ("Access-Control-Allow-Headers", "Content-Type") ].

(** [res.writeHead(status, headers); res.end(body)]. *)
Definition respond (status : Z) (headers : list (string * string))
    (body : string) : response :=
  mkResponse status (corsHeaders ++ headers) body.

Definition jsonContentType : list (string * string) :=
  [ ("Content-Type", "application/json") ].

(** [{ error: message }]. *)
Definition errorObject (message : string) : json :=
  JObj [ ("error", JStr message) ].

(** [urlPath.split("?")[0]]. *)
Fixpoint beforeQuery (urlPath : string) : string :=
  match urlPath with
  | EmptyString => EmptyString
  | String c rest =>
      if Ascii.eqb c "?"%char then EmptyString else String c (beforeQuery rest)
  end.

(** [body || "{}"] on strings. *)
Definition orEmptyJson (body : string) : string :=
  if (body =? "")%string then "{}" else body.

Section Server.

Context {platform : Platform}.

(** [readJsonBody(req)]. *)
Definition readJsonBody (req : request) : M json :=
  let chunks := reqChunks req in
  let raw := String.concat "" chunks in
  if (raw =? "")%string then ret (JObj [])
  else
    tryCatch
      (match JSON_parse raw with
       | Some value => ret value
       | None => throw "SyntaxError"
       end)
      (fun _ => ret (JObj [])).

(** [resolvePath(urlPath)]. *)
Definition resolvePath (urlPath : string) : string :=
  let filePath := beforeQuery urlPath in
  let filePath := if (filePath =? "/")%string then "/index.html" else filePath in
  path_join_dirname filePath.

(** The [catch (err)] block of both API routes. *)
Definition internalServerError (err : string) : M response :=
  consoleError err ;;;
  ret (respond 500 jsonContentType
         (JSON_stringify (errorObject "Internal server error"))).

(** The [/api/records] branch of the handler. *)
Definition recordsRoute (net : network) (req : request) : M response :=
  tryCatch
    (parsed <- readJsonBody req ;;
     let fields := orEmptyObject parsed in
     let apiKey := getProp fields "apiKey" in
     let objectKey := getProp fields "objectKey" in
     let continuationToken :=
       match getProp fields "continuationToken" with
       | None => Some (JStr "")
       | Some v => Some v
       end in
     if negb (truthy apiKey) || negb (truthy objectKey) then
       ret (respond 400 jsonContentType
              (JSON_stringify (errorObject "apiKey and objectKey are required")))
     else
       upstream <- fetchViaAvailableBase net apiKey objectKey continuationToken ;;
       ret (respond (status upstream) jsonContentType
              (orEmptyJson (body upstream))))
    internalServerError.

(** The [/api/contact/list] branch of the handler. *)
Definition contactListRoute (net : network) (req : request) : M response :=
  tryCatch
    (parsed <- readJsonBody req ;;
     let fields := orEmptyObject parsed in
     let apiKey := getProp fields "apiKey" in
     let groupListName := getProp fields "groupListName" in
     let userProfileIds := getProp fields "userProfileIds" in
     if negb (truthy apiKey) || negb (truthy groupListName)
        || negb (isArray userProfileIds) then
       ret (respond 400 jsonContentType
              (JSON_stringify
                 (errorObject
                    "apiKey, groupListName, and userProfileIds are required")))
     else
       upstream <- postViaAvailableBase net apiKey
                     (JObj (optProp "groupListName" groupListName
                              ++ optProp "userProfileIds" userProfileIds)) ;;
       ret (respond (status upstream) jsonContentType
              (orEmptyJson (body upstream))))
    internalServerError.

Definition notFound : response :=
  respond 404 jsonContentType (JSON_stringify (errorObject "Not found")).

(** The static files branch, down to the final 404. *)
Definition staticRoute (req : request) : M response :=
  if (reqMethod req =? "GET")%string then
    let resolvedPath := resolvePath (reqUrl req) in
    match fs_stat resolvedPath with
    | StatOk true =>
        match fs_readFile resolvedPath with
        | Some data =>
            let ext := path_extname resolvedPath in
            let contentType :=
              match assoc ext CONTENT_TYPES with
              | Some t => t
              | None => "application/octet-stream"
              end in
            ret (respond 200 [("Content-Type", contentType)] data)
        | None => ret notFound
        end
    | _ => ret notFound
    end
  else ret notFound.

(** The callback passed to [createServer]. *)
Definition handler (net : network) (req : request) : M response :=
  if (reqMethod req =? "OPTIONS")%string then ret (respond 204 [] "")
  else if (reqUrl req =? "/api/records")%string
          && (reqMethod req =? "POST")%string then recordsRoute net req
  else if (reqUrl req =? "/api/contact/list")%string
          && (reqMethod req =? "POST")%string then contactListRoute net req
  else staticRoute req.

End Server.

(* ================================================================== *)
(** ** Reading a relay call: requests, outcomes, attempts *)

Section Reading.

Context {platform : Platform}.

(** The request [fetchViaAvailableBase] sends to [base], once
    [encodeURIComponent(objectKey)] gave [key]. *)
Definition recordsRequest (apiKey continuationToken : jsval) (key : string)
    (base : string) : outReq :=
  let payload :=
    JSON_stringify
      (orEmptyObject (JObj (optProp "continuationToken" continuationToken))) in
  mkOutReq "GET"
    (stripTrailingSlashes base ++ "/api/customObjects/" ++ key
       ++ "/records?limit=1000")%string
    (setProp "Content-Length"
       (Some (JNum (number_of_Z (Z.of_nat (String.length payload)))))
       (setProp "Content-Type" (Some (JStr "application/json"))
          (recordsHeaders apiKey)))
    payload.

(** The request [postViaAvailableBase] sends to [base]. *)
Definition contactListRequest (apiKey : jsval) (payload : json)
    (base : string) : outReq :=
  mkOutReq "POST" (contactListUrl base) (contactListHeaders apiKey)
    (JSON_stringify (orEmptyObject payload)).

(** The response [proxyGetWithBody] resolves with. *)
Definition getResponse (statusCode : Z) (text : string) : upstreamResponse :=
  mkUpstream (orStatus500 statusCode) text.

(** How a turn of either loop judges the outcome of its request: the
    response to return, or the attempt record to keep. *)
Definition judgeRecords (base : string) (o : netOutcome)
  : upstreamResponse + json :=
  match o with
  | Responded statusCode text =>
      let resp := getResponse statusCode text in
      if status resp =? 200 then inl resp else inr (attemptRejected base resp)
  | Failed message => inr (attemptError base message)
  end.

Definition judgeContactList (base : string) (o : netOutcome)
  : upstreamResponse + json :=
  match o with
  | Responded statusCode text =>
      let resp := mkUpstream statusCode text in
      if ok resp then inl resp else inr (attemptRejected base resp)
  | Failed message => inr (attemptError base message)
  end.

(** The fields the routes destructure: what [readJsonBody] returns for the
    request, through [body || {}]. *)
Definition requestFields (req : request) : json :=
  let raw := String.concat "" (reqChunks req) in
  orEmptyObject
    (if (raw =? "")%string then JObj []
     else match JSON_parse raw with
          | Some value => value
          | None => JObj []
          end).

(** [continuationToken = ""] in the destructuring of [/api/records]. *)
Definition continuationTokenOf (req : request) : jsval :=
  match getProp (requestFields req) "continuationToken" with
  | None => Some (JStr "")
  | Some v => Some v
  end.

(** [{ groupListName, userProfileIds }] of [/api/contact/list]. *)
Definition contactListPayload (req : request) : json :=
  JObj (optProp "groupListName" (getProp (requestFields req) "groupListName")
          ++ optProp "userProfileIds"
               (getProp (requestFields req) "userProfileIds")).

(** The state after a relay call sent [reqs] and pinned [pin] (if any). *)
Definition after (pin : option string) (reqs : list outReq) (s : state) : state :=
  mkState (match pin with Some base => Some base | None => pinnedBaseUrl s end)
          (outbound s ++ reqs) (console s).

(** The state after the handler also logged [logs]. *)
Definition grown (pin : option string) (reqs : list outReq)
    (logs : list string) (s : state) : state :=
  mkState (match pin with Some base => Some base | None => pinnedBaseUrl s end)
          (outbound s ++ reqs) (console s ++ logs).

(** Both loops as one: try the hosts in order with a request builder and a
    judge, return at the first response the judge accepts. *)
Fixpoint tryHosts (net : network) (request : string -> outReq)
    (judge : string -> netOutcome -> upstreamResponse + json)
    (basesToTry : list string) (errors : list json)
  : upstreamResponse * option string * list outReq :=
  match basesToTry with
  | [] => (allFailed errors, None, [])
  | base :: rest =>
      match judge base (net (request base)) with
      | inl resp => (resp, Some base, [request base])
      | inr attempt =>
          let '(resp, pin, reqs) :=
            tryHosts net request judge rest (errors ++ [attempt]) in
          (resp, pin, request base :: reqs)
      end
  end.

(** The judge rejects the outcome at [base] and keeps [attempt] for it. *)
Definition kept (net : network) (request : string -> outReq)
    (judge : string -> netOutcome -> upstreamResponse + json)
    (base : string) (attempt : json) : Prop :=
  judge base (net (request base)) = inr attempt.

End Reading.

(** An attempt record describes the failure of a host: it names the host,
    and carries the status and body of a rejection or the message of a
    transport error.  [seen] is the status the proxy reads off the status
    code of the transport. *)
Definition describes (seen : Z -> Z) (base : string) (o : netOutcome)
    (attempt : json) : Prop :=
  match o with
  | Responded statusCode text =>
      attempt = JObj [ ("base", JStr base);
                       ("status", JNum (number_of_Z (seen statusCode)));
                       ("body", JStr text) ]
  | Failed message =>
      attempt = JObj [ ("base", JStr base); ("error", JStr message) ]
  end.

(** A host attempt of the record fetch fails: a status other than 200, or a
    transport error. *)
Definition recordsAttemptFails (o : netOutcome) : Prop :=
  match o with
  | Responded statusCode _ => statusCode <> 200
  | Failed _ => True
  end.

(** A host attempt of the contact list fails: a status outside 200..299, or
    a transport error. *)
Definition contactListAttemptFails (o : netOutcome) : Prop :=
  match o with
  | Responded statusCode _ => statusCode < 200 \/ 299 < statusCode
  | Failed _ => True
  end.

(** A required field is missing from the fields of a request, or is there
    with a falsy value: the test [!fields[k]]. *)
Definition lacks (fields : json) (k : string) : Prop :=
  truthy (getProp fields k) = false.

(** The pinned host, if any, is one of the configured hosts. *)
Definition pinnedValid (s : state) : Prop :=
  match pinnedBaseUrl s with
  | None => True
  | Some pinned => In pinned BASE_URLS
  end.

(** [l1] is [l2] with some elements left out, the order kept. *)
Inductive subsequence {A : Type} : list A -> list A -> Prop :=
| subsequence_nil : subsequence [] []
| subsequence_skip x l1 l2 : subsequence l1 l2 -> subsequence l1 (x :: l2)
| subsequence_keep x l1 l2 : subsequence l1 l2 -> subsequence (x :: l1) (x :: l2).

Section Calls.

Context {platform : Platform}.

(** The states the server can be in: the initial one, and the state after
    the handler served a request in such a state. *)
Inductive reachable : state -> Prop :=
| reachable_initial : reachable initialState
| reachable_served net req s :
    reachable s -> reachable (snd (handler net req s)).

(** A call of one of the two proxies, with the upstream hosts as they
    answer during it. *)
Inductive relayCall : Type :=
| RecordFetch (net : network) (apiKey objectKey continuationToken : jsval)
| ContactList (net : network) (apiKey : jsval) (payload : json).

Definition runCall (c : relayCall) : M upstreamResponse :=
  match c with
  | RecordFetch net apiKey objectKey continuationToken =>
      fetchViaAvailableBase net apiKey objectKey continuationToken
  | ContactList net apiKey payload => postViaAvailableBase net apiKey payload
  end.

(** The state after a sequence of relay calls. *)
Fixpoint runCalls (calls : list relayCall) (s : state) : state :=
  match calls with
  | [] => s
  | c :: rest => runCalls rest (snd (runCall c s))
  end.

(** During the call, [base] answers its request with a success: 200 to a
    record fetch, any 2xx to a contact list. *)
Definition succeedsOn (base : string) (c : relayCall) : Prop :=
  match c with
  | RecordFetch net apiKey objectKey continuationToken =>
      exists key text,
        encodeURIComponent objectKey = Some key
        /\ net (recordsRequest apiKey continuationToken key base)
           = Responded 200 text
  | ContactList net apiKey payload =>
      exists code text,
        net (contactListRequest apiKey payload base) = Responded code text
        /\ 200 <= code <= 299
  end.

(** What the catch block of a route makes of the way a relay call ends. *)
Definition served (r : result upstreamResponse * state)
  : result response * state :=
  match r with
  | (Ok upstream, s') =>
      (Ok (respond (status upstream) jsonContentType
             (orEmptyJson (body upstream))), s')
  | (Thrown err, s') => internalServerError err s'
  end.

End Calls.

(* ================================================================== *)
(** ** A platform and requests to run the model on *)

(** The examples below run the model on a concrete platform.  A string
    holds the UTF-8 bytes of its text, and a lone surrogate as the three
    bytes [ED A0..BF xx]. *)
Module Sample.

Definition doubleQuote : string := String (ascii_of_nat 34) EmptyString.

Definition quoted (s : string) : string := (doubleQuote ++ s ++ doubleQuote)%string.

Definition decimal (z : Z) : string := NilZero.string_of_int (Z.to_int z).

(** The number as an integer, when it is one written without a scale. *)
Definition integerOf (n : number) : option Z :=
  match n with
  | Zero _ => Some 0
  | Finite neg m 0 => Some (if neg then Zneg m else Zpos m)
  | _ => None
  end.

(** [JSON.stringify] on the values the examples print: strings that need no
    escape, integers; a number that is not finite prints as null. *)
Fixpoint stringify (v : json) : string :=
  match v with
  | JNull => "null"
  | JBool true => "true"
  | JBool false => "false"
  | JNum n => match integerOf n with Some z => decimal z | None => "null" end
  | JStr s => quoted s
  | JArr items => ("[" ++ String.concat "," (map stringify items) ++ "]")%string
  | JObj props =>
      ("{" ++ String.concat ","
                (map (fun p => quoted (fst p) ++ ":" ++ stringify (snd p)) props)
           ++ "}")%string
  end.

(** ToString on the values the examples encode. *)
Definition toString (v : jsval) : string :=
  match v with
  | None => "undefined"
  | Some JNull => "null"
  | Some (JBool true) => "true"
  | Some (JBool false) => "false"
  | Some (JNum n) => match integerOf n with Some z => decimal z | None => "NaN" end
  | Some (JStr s) => s
  | Some (JArr _) => ""
  | Some (JObj _) => "[object Object]"
  end.

Definition hexDigit (n : N) : ascii :=
  ascii_of_N (if (n <? 10)%N then 48 + n else 55 + n).

(** The characters [encodeURIComponent] leaves as they are. *)
Definition unreserved (c : ascii) : bool :=
  let n := N_of_ascii c in
  ((65 <=? n) && (n <=? 90) || (97 <=? n) && (n <=? 122)
   || (48 <=? n) && (n <=? 57))%N
  || existsb (Ascii.eqb c)
       [ "-"; "_"; "."; "!"; "~"; "*"; "'"; "("; ")" ]%char.

Fixpoint percentEncode (s : string) : string :=
  match s with
  | EmptyString => EmptyString
  | String c rest =>
      if unreserved c then String c (percentEncode rest)
      else
        let n := N_of_ascii c in
        String "%" (String (hexDigit (n / 16)) (String (hexDigit (n mod 16))
                                                  (percentEncode rest)))
  end.

(** The bytes of a surrogate code point: [ED] then a byte from [A0] up. *)
Fixpoint hasSurrogate (s : string) : bool :=
  match s with
  | String c (String d _ as rest) =>
      ((N_of_ascii c =? 237) && (160 <=? N_of_ascii d))%N || hasSurrogate rest
  | _ => false
  end.

Definition encode (v : jsval) : option string :=
  let s := toString v in
  if hasSurrogate s then None else Some (percentEncode s).

(** The request bodies of the examples, as text and as [JSON.parse] reads
    them. *)
Definition recordsText : string :=
  ("{" ++ quoted "apiKey" ++ ":" ++ quoted "k-1" ++ ","
       ++ quoted "objectKey" ++ ":" ++ quoted "orders" ++ "}")%string.

Definition recordsValue : json :=
  JObj [ ("apiKey", JStr "k-1"); ("objectKey", JStr "orders") ].

Definition contactText : string :=
  ("{" ++ quoted "apiKey" ++ ":" ++ quoted "k-1" ++ ","
       ++ quoted "groupListName" ++ ":" ++ quoted "vip" ++ ","
       ++ quoted "userProfileIds" ++ ":[" ++ quoted "u1" ++ "]}")%string.

Definition contactValue : json :=
  JObj [ ("apiKey", JStr "k-1"); ("groupListName", JStr "vip");
         ("userProfileIds", JArr [JStr "u1"]) ].

(** A body without the api key, and one whose ids are not an array. *)
Definition noKeyText : string :=
  ("{" ++ quoted "objectKey" ++ ":" ++ quoted "orders" ++ "}")%string.

Definition noKeyValue : json := JObj [ ("objectKey", JStr "orders") ].

Definition idsNotArrayText : string :=
  ("{" ++ quoted "apiKey" ++ ":" ++ quoted "k-1" ++ ","
       ++ quoted "groupListName" ++ ":" ++ quoted "vip" ++ ","
       ++ quoted "userProfileIds" ++ ":" ++ quoted "u1" ++ "}")%string.

Definition idsNotArrayValue : json :=
  JObj [ ("apiKey", JStr "k-1"); ("groupListName", JStr "vip");
         ("userProfileIds", JStr "u1") ].

(** A body whose object key is a lone surrogate, written [\ud800] in the
    text: [encodeURIComponent] throws on it. *)
Definition loneSurrogate : string :=
  String (ascii_of_nat 237) (String (ascii_of_nat 160)
                               (String (ascii_of_nat 128) EmptyString)).

Definition surrogateText : string :=
  ("{" ++ quoted "apiKey" ++ ":" ++ quoted "k-1" ++ ","
       ++ quoted "objectKey" ++ ":" ++ quoted "\ud800" ++ "}")%string.

Definition surrogateValue : json :=
  JObj [ ("apiKey", JStr "k-1"); ("objectKey", JStr loneSurrogate) ].

(** A text [JSON.parse] rejects: an object that is never closed. *)
Definition malformedText : string := "{".

(** [JSON.parse] on the texts above; any other text is outside the
    examples and read as malformed. *)
Definition parse (raw : string) : option json :=
  if (raw =? recordsText)%string then Some recordsValue
  else if (raw =? contactText)%string then Some contactValue
  else if (raw =? noKeyText)%string then Some noKeyValue
  else if (raw =? idsNotArrayText)%string then Some idsNotArrayValue
  else if (raw =? surrogateText)%string then Some surrogateValue
  else None.

(** The part of a path after the last dot of its last segment. *)
Fixpoint extname (p : string) : string :=
  match p with
  | EmptyString => EmptyString
  | String c rest =>
      let later := extname rest in
      if Ascii.eqb c "/"%char then later
      else if (later =? "")%string
           then (if Ascii.eqb c "."%char
                    && negb (existsb (Ascii.eqb "/"%char) (list_ascii_of_string rest))
                 then p else EmptyString)
           else later
  end.

Definition platform : Platform := {|
  JSON_parse := parse;
  JSON_stringify := stringify;
  encodeURIComponent := encode;
  URIError_message := "URI malformed";
  path_join_dirname := fun p => ("/app" ++ p)%string;
  path_extname := extname;
  fs_stat := fun p => if (p =? "/app/index.html")%string then StatOk true
                      else StatThrows;
  fs_readFile := fun p => if (p =? "/app/index.html")%string
                          then Some "<!doctype html>" else None
|}.

Definition recordsRequestIn : request :=
  mkRequest "POST" "/api/records" [recordsText].

Definition contactRequestIn : request :=
  mkRequest "POST" "/api/contact/list" [contactText].

(** The host at position [i] of the fixed list. *)
Definition host (i : nat) : string := nth i BASE_URLS "".

(** Upstream hosts that answer by the host a request goes to. *)
Definition startsWith (prefix s : string) : bool :=
  (substring 0 (String.length prefix) s =? prefix)%string.

Definition answers (table : list (string * netOutcome)) : network :=
  fun r =>
    match find (fun entry => startsWith (fst entry) (outUrl r)) table with
    | Some entry => snd entry
    | None => Failed "getaddrinfo ENOTFOUND"
    end.

End Sample.

(* ================================================================== *)
(** ** The loops, read as [tryHosts] *)

Section LoopFacts.

Context {platform : Platform}.

Lemma after_nil (s : state) : after None [] s = s.
Proof.
  destruct s as [p o c]. unfold after. simpl. now rewrite app_nil_r.
Qed.

Lemma after_send (pin : option string) (r : outReq) (reqs : list outReq)
    (s : state) :
  after pin reqs (mkState (pinnedBaseUrl s) (outbound s ++ [r]) (console s))
  = after pin (r :: reqs) s.
Proof.
  unfold after. simpl. now rewrite <- app_assoc.
Qed.

(** With the object key encoded, [fetchLoop] is [tryHosts] on the requests
    and the judge of the record fetch. *)
Lemma fetchLoop_tryHosts (net : network) (apiKey objectKey ct : jsval)
    (key : string) (Hkey : encodeURIComponent objectKey = Some key)
    (bases : list string) :
  forall (errors : list json) (s : state),
    fetchLoop net apiKey objectKey ct bases errors s
    = let '(resp, pin, reqs) :=
        tryHosts net (recordsRequest apiKey ct key) judgeRecords bases errors in
      (Ok resp, after pin reqs s).
Proof.
  induction bases as [|base rest IH]; intros errors s.
  - simpl. unfold ret. now rewrite after_nil.
  - cbn [fetchLoop tryHosts].
    unfold bind at 1. unfold recordsUrl. rewrite Hkey. unfold ret at 1.
    unfold bind at 1. unfold tryCatch, proxyGetWithBody, send.
    unfold bind at 1. unfold bind at 1.
    fold (recordsRequest apiKey ct key base).
    unfold judgeRecords at 1.
    destruct (net (recordsRequest apiKey ct key base)) as [code text|message].
    + unfold ret at 1. fold (getResponse code text).
      destruct (status (getResponse code text) =? 200) eqn:E.
      * unfold bind, setPinned, ret. reflexivity.
      * unfold ret at 1. rewrite IH.
        destruct (tryHosts net (recordsRequest apiKey ct key) judgeRecords rest
                    (errors ++ [attemptRejected base (getResponse code text)]))
          as [[resp pin] reqs].
        now rewrite after_send.
    + unfold throw, ret at 1. rewrite IH.
      destruct (tryHosts net (recordsRequest apiKey ct key) judgeRecords rest
                  (errors ++ [attemptError base message]))
        as [[resp pin] reqs].
      now rewrite after_send.
Qed.

(** When [encodeURIComponent] throws, the loop throws at its first turn and
    touches nothing. *)
Lemma fetchLoop_throws (net : network) (apiKey objectKey ct : jsval)
    (Hkey : encodeURIComponent objectKey = None)
    (base : string) (rest : list string) (errors : list json) (s : state) :
  fetchLoop net apiKey objectKey ct (base :: rest) errors s
  = (Thrown URIError_message, s).
Proof.
  cbn [fetchLoop]. unfold bind at 1. unfold recordsUrl. now rewrite Hkey.
Qed.

(** [postLoop] is [tryHosts] on the requests and the judge of the contact
    list. *)
Lemma postLoop_tryHosts (net : network) (apiKey : jsval) (payload : json)
    (bases : list string) :
  forall (errors : list json) (s : state),
    postLoop net apiKey payload bases errors s
    = let '(resp, pin, reqs) :=
        tryHosts net (contactListRequest apiKey payload) judgeContactList
          bases errors in
      (Ok resp, after pin reqs s).
Proof.
  induction bases as [|base rest IH]; intros errors s.
  - simpl. unfold ret. now rewrite after_nil.
  - cbn [postLoop tryHosts].
    unfold bind at 1. unfold tryCatch, fetchText, send.
    unfold bind at 1. unfold bind at 1.
    fold (contactListRequest apiKey payload base).
    unfold judgeContactList at 1.
    destruct (net (contactListRequest apiKey payload base)) as [code text|message].
    + unfold ret at 1.
      destruct (ok (mkUpstream code text)) eqn:E.
      * unfold bind, setPinned, ret. reflexivity.
      * unfold ret at 1. rewrite IH.
        destruct (tryHosts net (contactListRequest apiKey payload)
                    judgeContactList rest
                    (errors ++ [attemptRejected base (mkUpstream code text)]))
          as [[resp pin] reqs].
        now rewrite after_send.
    + unfold throw, ret at 1. rewrite IH.
      destruct (tryHosts net (contactListRequest apiKey payload)
                  judgeContactList rest (errors ++ [attemptError base message]))
        as [[resp pin] reqs].
      now rewrite after_send.
Qed.

End LoopFacts.

(* ================================================================== *)
(** ** What [tryHosts] computes *)

Section TryHosts.

Context {platform : Platform}.
Variable net : network.
Variable request : string -> outReq.
Variable judge : string -> netOutcome -> upstreamResponse + json.

#[local] Abbreviation keeps := (kept net request judge).

(** Every host is rejected: all attempts are kept, in order, nothing is
    pinned and every host got its request. *)
Lemma tryHosts_exhausted (bases : list string) :
  forall (errors attempts : list json),
    Forall2 keeps bases attempts ->
    tryHosts net request judge bases errors
    = (allFailed (errors ++ attempts), None, map request bases).
Proof.
  induction bases as [|base rest IH]; intros errors attempts H.
  - inversion H; subst. simpl. now rewrite app_nil_r.
  - inversion H as [|b a l l' Hk Hrest]; subst.
    cbn [tryHosts map]. unfold kept in Hk. rewrite Hk.
    rewrite (IH (errors ++ [a]) l' Hrest).
    now rewrite <- app_assoc.
Qed.

(** The hosts before [base] are rejected and [base] is accepted: its
    response is returned, it is pinned, and no later host gets a request. *)
Lemma tryHosts_accepted (pre : list string) (base : string)
    (post : list string) (resp : upstreamResponse) :
  forall (errors attempts : list json),
    Forall2 keeps pre attempts ->
    judge base (net (request base)) = inl resp ->
    tryHosts net request judge (pre ++ base :: post) errors
    = (resp, Some base, map request (pre ++ [base])).
Proof.
  induction pre as [|b rest IH]; intros errors attempts H Hacc.
  - simpl. now rewrite Hacc.
  - inversion H as [|b' a l l' Hk Hrest]; subst.
    cbn [tryHosts map app]. unfold kept in Hk. rewrite Hk.
    now rewrite (IH (errors ++ [a]) l' Hrest Hacc).
Qed.

(** A run of [tryHosts] is one of the two above. *)
Lemma tryHosts_inv (bases : list string) :
  forall (errors : list json) resp pin reqs,
    tryHosts net request judge bases errors = (resp, pin, reqs) ->
    (exists attempts,
        Forall2 keeps bases attempts
        /\ resp = allFailed (errors ++ attempts)
        /\ pin = None /\ reqs = map request bases)
    \/ (exists pre base post attempts,
           bases = pre ++ base :: post
           /\ Forall2 keeps pre attempts
           /\ judge base (net (request base)) = inl resp
           /\ pin = Some base /\ reqs = map request (pre ++ [base])).
Proof.
  induction bases as [|base rest IH]; intros errors resp pin reqs H.
  - simpl in H. inversion H; subst. left. exists []. 
    rewrite app_nil_r. repeat split. constructor.
  - cbn [tryHosts] in H.
    destruct (judge base (net (request base))) as [r|a] eqn:Hj.
    + inversion H; subst. right. exists [], base, rest, [].
      repeat split; auto; constructor.
    + destruct (tryHosts net request judge rest (errors ++ [a]))
        as [[resp' pin'] reqs'] eqn:Hrest.
      inversion H; subst.
      destruct (IH _ _ _ _ Hrest)
        as [(attempts & Hall & Hresp & Hpin & Hreqs)
           |(pre & b & post & attempts & Hb & Hall & Hacc & Hpin & Hreqs)].
      * left. exists (a :: attempts). subst.
        rewrite <- app_assoc. repeat split; auto; try now constructor.
      * right. exists (base :: pre), b, post, (a :: attempts). subst.
        repeat split; auto; try now constructor.
Qed.

(** The pinned host of a run is one of the hosts tried. *)
Lemma tryHosts_pin_in (bases : list string) (errors : list json)
    resp base reqs :
  tryHosts net request judge bases errors = (resp, Some base, reqs) ->
  In base bases.
Proof.
  intros H. apply tryHosts_inv in H.
  destruct H as [(? & _ & _ & Hpin & _)|(pre & b & post & ? & Hb & _ & _ & Hpin & _)].
  - discriminate.
  - inversion Hpin; subst. apply in_or_app. right. now left.
Qed.

End TryHosts.

(* ================================================================== *)
(** ** The host list and the ordering *)

Lemma BASE_URLS_NoDup : NoDup BASE_URLS.
Proof.
  unfold BASE_URLS.
  repeat (constructor; [simpl; intros H; repeat (destruct H as [H|H]; [discriminate H|]); exact H|]).
  constructor.
Qed.

Lemma BASE_URLS_nonempty (base : string) : In base BASE_URLS -> base <> "".
Proof.
  unfold BASE_URLS. simpl. intros H.
  repeat (destruct H as [H|H]; [subst; discriminate|]). contradiction.
Qed.

Lemma filter_subsequence {A : Type} (f : A -> bool) (l : list A) :
  subsequence (filter f l) l.
Proof.
  induction l as [|x l IH]; simpl.
  - constructor.
  - destruct (f x); now constructor.
Qed.

Lemma filter_others_In (pinned : string) (l : list string) (base : string) :
  In base (filter (fun b => negb (b =? pinned)%string) l)
  <-> In base l /\ base <> pinned.
Proof.
  rewrite filter_In. split; intros [Hin H]; split; auto.
  - intros ->. now rewrite String.eqb_refl in H.
  - apply negb_true_iff. now apply String.eqb_neq.
Qed.

(** Leaving one element of a duplicate-free list out shortens it by one. *)
Lemma filter_others_length (pinned : string) (l : list string) :
  NoDup l -> In pinned l ->
  S (length (filter (fun b => negb (b =? pinned)%string) l)) = length l.
Proof.
  induction l as [|x l IH]; intros Hnd Hin; [contradiction|].
  inversion Hnd as [|? ? Hx Hl]; subst. simpl.
  destruct (x =? pinned)%string eqn:E; simpl.
  - apply String.eqb_eq in E. subst x. f_equal.
    clear IH Hnd Hin Hl. induction l as [|y l IH]; simpl; auto.
    destruct (y =? pinned)%string eqn:E.
    + apply String.eqb_eq in E. subst. exfalso. apply Hx. now left.
    + simpl. f_equal. apply IH. intros H. apply Hx. now right.
  - f_equal. apply IH; auto. destruct Hin as [->|Hin]; auto.
    now rewrite String.eqb_refl in E.
Qed.

(** Every host of the ordering is named: none is the empty string. *)
Lemma getBasesToTry_nonempty (s : state) (base : string) :
  In base (getBasesToTry s) -> base <> "".
Proof.
  unfold getBasesToTry.
  destruct (pinnedBaseUrl s) as [pinned|]; [|apply BASE_URLS_nonempty].
  destruct (pinned =? "")%string eqn:E; [apply BASE_URLS_nonempty|].
  intros [<-|H].
  - now apply String.eqb_neq.
  - apply filter_others_In in H. now apply BASE_URLS_nonempty.
Qed.

(** With a valid pin, the ordering holds the configured hosts and no
    other, each once. *)
Lemma getBasesToTry_In (s : state) (base : string) :
  pinnedValid s -> In base (getBasesToTry s) <-> In base BASE_URLS.
Proof.
  unfold pinnedValid, getBasesToTry.
  destruct (pinnedBaseUrl s) as [pinned|]; [|tauto].
  intros Hp. rewrite (proj2 (String.eqb_neq _ _) (BASE_URLS_nonempty _ Hp)).
  split.
  - intros [<-|H]; auto. now apply filter_others_In in H.
  - intros H. destruct (String.eqb_spec pinned base) as [->|Hne].
    + now left.
    + right. apply filter_others_In. split; auto.
Qed.

Lemma getBasesToTry_length (s : state) :
  pinnedValid s -> length (getBasesToTry s) = length BASE_URLS.
Proof.
  unfold pinnedValid, getBasesToTry.
  destruct (pinnedBaseUrl s) as [pinned|]; [|reflexivity].
  intros Hp. rewrite (proj2 (String.eqb_neq _ _) (BASE_URLS_nonempty _ Hp)).
  cbn [length]. apply filter_others_length; auto. apply BASE_URLS_NoDup.
Qed.

(** The ordering after a host was pinned starts with that host. *)
Lemma getBasesToTry_after_pin (base : string) (reqs : list outReq) (s : state) :
  base <> "" ->
  getBasesToTry (after (Some base) reqs s)
  = base :: filter (fun b => negb (b =? base)%string) BASE_URLS.
Proof.
  intros H. unfold getBasesToTry, after. simpl.
  now rewrite (proj2 (String.eqb_neq _ _) H).
Qed.

(* ================================================================== *)
(** ** The judges *)

Lemma judgeRecords_fails (base : string) (o : netOutcome) :
  recordsAttemptFails o ->
  exists attempt,
    judgeRecords base o = inr attempt /\ describes orStatus500 base o attempt.
Proof.
  destruct o as [code text|message]; simpl; intros H.
  - assert ((orStatus500 code =? 200) = false) as ->.
    { unfold orStatus500. destruct (code =? 0); [reflexivity|].
      now apply Z.eqb_neq. }
    eexists. split; reflexivity.
  - eexists. split; reflexivity.
Qed.

Lemma judgeContactList_ok (base text : string) (code : Z) :
  200 <= code <= 299 ->
  judgeContactList base (Responded code text) = inl (mkUpstream code text).
Proof.
  intros [H1 H2]. unfold judgeContactList, ok. simpl.
  apply Z.leb_le in H1, H2. now rewrite H1, H2.
Qed.

Lemma judgeContactList_fails (base : string) (o : netOutcome) :
  contactListAttemptFails o ->
  exists attempt,
    judgeContactList base o = inr attempt
    /\ describes (fun code => code) base o attempt.
Proof.
  destruct o as [code text|message]; simpl; intros H.
  - unfold ok. simpl.
    assert (((200 <=? code) && (code <=? 299)) = false) as ->.
    { apply andb_false_iff. rewrite !Z.leb_gt. lia. }
    eexists. split; reflexivity.
  - eexists. split; reflexivity.
Qed.

(** Attempts kept for hosts that all fail, one per host and in order. *)
Lemma kept_all (net : network) (request : string -> outReq)
    (judge : string -> netOutcome -> upstreamResponse + json)
    (fails : netOutcome -> Prop) (seen : Z -> Z)
    (Hjudge : forall base o, fails o ->
        exists attempt,
          judge base o = inr attempt /\ describes seen base o attempt)
    (bases : list string) :
  (forall base, In base bases -> fails (net (request base))) ->
  exists attempts,
    Forall2 (kept net request judge) bases attempts
    /\ Forall2
         (fun base attempt => describes seen base (net (request base)) attempt)
         bases attempts.
Proof.
  induction bases as [|base rest IH]; intros H.
  - exists []. split; constructor.
  - destruct IH as (attempts & Hk & Hd); [intros b Hb; apply H; now right|].
    destruct (Hjudge base _ (H base (or_introl eq_refl))) as (a & Ha & Hda).
    exists (a :: attempts). split; constructor; auto.
Qed.

(* ================================================================== *)
(** ** The proxies and the routes *)

Section RelayFacts.

Context {platform : Platform}.

Lemma judgeRecords_inl (base : string) (o : netOutcome) (resp : upstreamResponse) :
  judgeRecords base o = inl resp ->
  exists text, o = Responded 200 text /\ resp = mkUpstream 200 text.
Proof.
  destruct o as [code text|message]; simpl; [|discriminate].
  unfold getResponse, orStatus500.
  destruct (code =? 0) eqn:E0; simpl; [discriminate|].
  destruct (code =? 200) eqn:E; [|discriminate].
  apply Z.eqb_eq in E. subst. intros H. inversion H. now exists text.
Qed.

Lemma judgeContactList_inl (base : string) (o : netOutcome)
    (resp : upstreamResponse) :
  judgeContactList base o = inl resp ->
  exists code text,
    o = Responded code text /\ 200 <= code <= 299 /\ resp = mkUpstream code text.
Proof.
  destruct o as [code text|message]; simpl; [|discriminate].
  unfold ok. simpl.
  destruct ((200 <=? code) && (code <=? 299)) eqn:E; [|discriminate].
  apply andb_true_iff in E. rewrite !Z.leb_le in E.
  intros H. inversion H. exists code, text. auto.
Qed.

(** The ordering always has a first host. *)
Lemma getBasesToTry_cons (s : state) :
  exists base rest, getBasesToTry s = base :: rest.
Proof.
  unfold getBasesToTry. destruct (pinnedBaseUrl s) as [pinned|].
  - destruct (pinned =? "")%string; eexists; eexists; reflexivity.
  - eexists; eexists; reflexivity.
Qed.

(** The record fetch, by whether the object key can be encoded. *)
Lemma fetchViaAvailableBase_run (net : network) (apiKey objectKey ct : jsval)
    (key : string) (s : state) :
  encodeURIComponent objectKey = Some key ->
  fetchViaAvailableBase net apiKey objectKey ct s
  = let '(resp, pin, reqs) :=
      tryHosts net (recordsRequest apiKey ct key) judgeRecords
        (getBasesToTry s) [] in
    (Ok resp, after pin reqs s).
Proof.
  intros H. unfold fetchViaAvailableBase. now apply fetchLoop_tryHosts.
Qed.

Lemma fetchViaAvailableBase_throws (net : network) (apiKey objectKey ct : jsval)
    (s : state) :
  encodeURIComponent objectKey = None ->
  fetchViaAvailableBase net apiKey objectKey ct s = (Thrown URIError_message, s).
Proof.
  intros H. unfold fetchViaAvailableBase.
  destruct (getBasesToTry_cons s) as (base & rest & ->).
  now apply fetchLoop_throws.
Qed.

Lemma postViaAvailableBase_run (net : network) (apiKey : jsval) (payload : json)
    (s : state) :
  postViaAvailableBase net apiKey payload s
  = let '(resp, pin, reqs) :=
      tryHosts net (contactListRequest apiKey payload) judgeContactList
        (getBasesToTry s) [] in
    (Ok resp, after pin reqs s).
Proof. unfold postViaAvailableBase. apply postLoop_tryHosts. Qed.

(** [readJsonBody] always returns, and changes nothing. *)
Lemma readJsonBody_fields (req : request) (s : state) :
  exists parsed,
    readJsonBody req s = (Ok parsed, s)
    /\ orEmptyObject parsed = requestFields req.
Proof.
  unfold readJsonBody, requestFields.
  destruct (String.concat "" (reqChunks req) =? "")%string.
  - eexists. split; reflexivity.
  - unfold tryCatch.
    destruct (JSON_parse (String.concat "" (reqChunks req)));
      eexists; split; reflexivity.
Qed.

Lemma recordsRoute_run (net : network) (req : request) (s : state) :
  recordsRoute net req s
  = if negb (truthy (getProp (requestFields req) "apiKey"))
       || negb (truthy (getProp (requestFields req) "objectKey"))
    then (Ok (respond 400 jsonContentType
                (JSON_stringify
                   (errorObject "apiKey and objectKey are required"))), s)
    else served (fetchViaAvailableBase net
                   (getProp (requestFields req) "apiKey")
                   (getProp (requestFields req) "objectKey")
                   (continuationTokenOf req) s).
Proof.
  unfold recordsRoute, tryCatch. unfold bind at 1.
  destruct (readJsonBody_fields req s) as (parsed & -> & Hf).
  cbv zeta. rewrite Hf. fold (continuationTokenOf req).
  destruct (negb (truthy (getProp (requestFields req) "apiKey"))
            || negb (truthy (getProp (requestFields req) "objectKey"))).
  - reflexivity.
  - unfold bind, served.
    destruct (fetchViaAvailableBase net _ _ _ s) as [[up|err] s']; reflexivity.
Qed.

Lemma contactListRoute_run (net : network) (req : request) (s : state) :
  contactListRoute net req s
  = if negb (truthy (getProp (requestFields req) "apiKey"))
       || negb (truthy (getProp (requestFields req) "groupListName"))
       || negb (isArray (getProp (requestFields req) "userProfileIds"))
    then (Ok (respond 400 jsonContentType
                (JSON_stringify
                   (errorObject
                      "apiKey, groupListName, and userProfileIds are required"))),
          s)
    else served (postViaAvailableBase net
                   (getProp (requestFields req) "apiKey")
                   (contactListPayload req) s).
Proof.
  unfold contactListRoute, tryCatch. unfold bind at 1.
  destruct (readJsonBody_fields req s) as (parsed & -> & Hf).
  cbv zeta. rewrite Hf. fold (contactListPayload req).
  destruct (negb (truthy (getProp (requestFields req) "apiKey"))
            || negb (truthy (getProp (requestFields req) "groupListName"))
            || negb (isArray (getProp (requestFields req) "userProfileIds"))).
  - reflexivity.
  - unfold bind, served.
    destruct (postViaAvailableBase net _ _ s) as [[up|err] s']; reflexivity.
Qed.

Lemma after_after (pin : option string) (r : outReq) (reqs : list outReq)
    (s : state) :
  after pin reqs (after None [r] s) = after pin (r :: reqs) s.
Proof. unfold after. simpl. now rewrite <- app_assoc. Qed.

Lemma handler_records (net : network) (req : request) (s : state) :
  reqUrl req = "/api/records" -> reqMethod req = "POST" ->
  handler net req s = recordsRoute net req s.
Proof. intros Hu Hm. unfold handler. now rewrite Hu, Hm. Qed.

Lemma handler_contactList (net : network) (req : request) (s : state) :
  reqUrl req = "/api/contact/list" -> reqMethod req = "POST" ->
  handler net req s = contactListRoute net req s.
Proof. intros Hu Hm. unfold handler. now rewrite Hu, Hm. Qed.

End RelayFacts.

(* ================================================================== *)
(** ** Host ordering *)

(** C1. With no host pinned the ordering is the fixed host list unchanged;
    with a host pinned the ordering is that host followed by the other
    configured hosts, in the order of the fixed list and without the pinned
    host.  Stated for the states whose pin is one of the configured hosts,
    which every reachable state is ([reachable_pinnedValid]). *)
Theorem getBasesToTry_pinned_first (s : state) :
  pinnedValid s ->
  match pinnedBaseUrl s with
  | None => getBasesToTry s = BASE_URLS
  | Some pinned =>
      exists rest,
        getBasesToTry s = pinned :: rest
        /\ subsequence rest BASE_URLS
        /\ (forall base, In base rest <-> In base BASE_URLS /\ base <> pinned)
  end.
Proof.
  unfold pinnedValid, getBasesToTry.
  destruct (pinnedBaseUrl s) as [pinned|]; [|reflexivity].
  intros Hp. rewrite (proj2 (String.eqb_neq _ _) (BASE_URLS_nonempty _ Hp)).
  eexists. split; [reflexivity|]. split.
  - apply filter_subsequence.
  - intros base. apply filter_others_In.
Qed.

Lemma getBasesToTry_pinned_first_witness :
  pinnedValid (mkState (Some (Sample.host 2)) [] [])
  /\ exists rest,
       getBasesToTry (mkState (Some (Sample.host 2)) [] [])
       = Sample.host 2 :: rest
       /\ subsequence rest BASE_URLS
       /\ (forall base,
              In base rest <-> In base BASE_URLS /\ base <> Sample.host 2).
Proof.
  assert (H : pinnedValid (mkState (Some (Sample.host 2)) [] [])).
  { unfold pinnedValid. simpl. do 2 right. left. reflexivity. }
  split; [exact H|].
  exact (getBasesToTry_pinned_first (mkState (Some (Sample.host 2)) [] []) H).
Defined.

(* ================================================================== *)
(** ** The two success predicates *)

(** C2. On the same answer of a host, a status code with a body, the record
    fetch returns it and pins the host exactly when the status is 200, and
    otherwise keeps it as a failed attempt and goes on to the next host; the
    contact list returns it and pins the host exactly when the status is in
    200..299.  So a 2xx other than 200 is a failed attempt of the record
    fetch and a success of the contact list. *)
Theorem success_predicates_differ {platform : Platform} (net : network)
    (apiKey objectKey ct : jsval) (key : string) (payload : json)
    (base : string) (rest : list string) (errors : list json) (s : state)
    (code : Z) (text : string) :
  encodeURIComponent objectKey = Some key ->
  net (recordsRequest apiKey ct key base) = Responded code text ->
  net (contactListRequest apiKey payload base) = Responded code text ->
  (code = 200 ->
   fetchLoop net apiKey objectKey ct (base :: rest) errors s
   = (Ok (mkUpstream 200 text),
      after (Some base) [recordsRequest apiKey ct key base] s))
  /\ (code <> 200 ->
      fetchLoop net apiKey objectKey ct (base :: rest) errors s
      = fetchLoop net apiKey objectKey ct rest
          (errors ++ [attemptRejected base (getResponse code text)])
          (after None [recordsRequest apiKey ct key base] s))
  /\ (200 <= code <= 299 ->
      postLoop net apiKey payload (base :: rest) errors s
      = (Ok (mkUpstream code text),
         after (Some base) [contactListRequest apiKey payload base] s))
  /\ (~ 200 <= code <= 299 ->
      postLoop net apiKey payload (base :: rest) errors s
      = postLoop net apiKey payload rest
          (errors ++ [attemptRejected base (mkUpstream code text)])
          (after None [contactListRequest apiKey payload base] s)).
Proof.
  intros Hkey Hget Hpost.
  rewrite !(fetchLoop_tryHosts net apiKey objectKey ct key Hkey).
  rewrite !postLoop_tryHosts. cbn [tryHosts]. rewrite Hget, Hpost.
  repeat split.
  - intros ->. reflexivity.
  - intros Hne.
    destruct (judgeRecords_fails base (Responded code text) Hne)
      as (attempt & Hj & _).
    rewrite Hj.
    assert (attempt = attemptRejected base (getResponse code text)) as ->.
    { unfold judgeRecords in Hj.
      destruct (status (getResponse code text) =? 200); congruence. }
    destruct (tryHosts net _ judgeRecords rest _) as [[resp pin] reqs].
    now rewrite after_after.
  - intros Hok. now rewrite (judgeContactList_ok base text code Hok).
  - intros Hno.
    assert (Hf : contactListAttemptFails (Responded code text)) by (simpl; lia).
    destruct (judgeContactList_fails base _ Hf) as (attempt & Hj & _).
    rewrite Hj.
    assert (attempt = attemptRejected base (mkUpstream code text)) as ->.
    { unfold judgeContactList in Hj.
      destruct (ok (mkUpstream code text)); congruence. }
    destruct (tryHosts net _ judgeContactList rest _) as [[resp pin] reqs].
    now rewrite after_after.
Qed.

Lemma success_predicates_differ_witness :
  let net := Sample.answers [(Sample.host 0, Responded 204 "")] in
  let apiKey := Some (JStr "k-1") in
  let objectKey := Some (JStr "orders") in
  let ct := Some (JStr "") in
  let payload := JObj [("groupListName", JStr "vip"); ("userProfileIds", JArr [])] in
  let get := @recordsRequest Sample.platform apiKey ct "orders" (Sample.host 0) in
  let post := @contactListRequest Sample.platform apiKey payload (Sample.host 0) in
  @encodeURIComponent Sample.platform objectKey = Some "orders"
  /\ net get = Responded 204 ""
  /\ net post = Responded 204 ""
  /\ @fetchLoop Sample.platform net apiKey objectKey ct
       [Sample.host 0; Sample.host 1] [] initialState
     = @fetchLoop Sample.platform net apiKey objectKey ct [Sample.host 1]
         [attemptRejected (Sample.host 0) (mkUpstream 204 "")]
         (after None [get] initialState)
  /\ @postLoop Sample.platform net apiKey payload
       [Sample.host 0; Sample.host 1] [] initialState
     = (Ok (mkUpstream 204 ""), after (Some (Sample.host 0)) [post] initialState).
Proof.
  intros net apiKey objectKey ct payload get post.
  assert (H1 : @encodeURIComponent Sample.platform objectKey = Some "orders")
    by reflexivity.
  assert (H2 : net get = Responded 204 "") by reflexivity.
  assert (H3 : net post = Responded 204 "") by reflexivity.
  split; [exact H1|]. split; [exact H2|]. split; [exact H3|].
  destruct (@success_predicates_differ Sample.platform net apiKey objectKey ct
              "orders" payload (Sample.host 0) [Sample.host 1] [] initialState
              204 "" H1 H2 H3) as (_ & Hget & Hpost & _).
  split; [apply Hget; discriminate|apply Hpost; lia].
Defined.

(* ================================================================== *)
(** ** Validation *)

Lemma missing_lacks (fields : json) (k : string) :
  getProp fields k = None -> lacks fields k.
Proof. unfold lacks. now intros ->. Qed.

(** C3. A POST to [/api/records] whose fields lack [apiKey] or [objectKey],
    and a POST to [/api/contact/list] whose fields lack [apiKey] or
    [groupListName] or whose [userProfileIds] is not an array, is answered
    400 with a JSON object holding an error message; the state after is the
    state before, so no request went upstream and the pinned host is as it
    was. *)
Theorem validation_rejects {platform : Platform} (net : network)
    (req : request) (s : state) :
  reqMethod req = "POST" ->
  (reqUrl req = "/api/records" ->
   lacks (requestFields req) "apiKey" \/ lacks (requestFields req) "objectKey" ->
   handler net req s
   = (Ok (respond 400 jsonContentType
            (JSON_stringify
               (JObj [("error", JStr "apiKey and objectKey are required")]))),
      s))
  /\ (reqUrl req = "/api/contact/list" ->
      lacks (requestFields req) "apiKey"
      \/ lacks (requestFields req) "groupListName"
      \/ isArray (getProp (requestFields req) "userProfileIds") = false ->
      handler net req s
      = (Ok (respond 400 jsonContentType
               (JSON_stringify
                  (JObj [("error",
                          JStr "apiKey, groupListName, and userProfileIds are required")]))),
         s)).
Proof.
  intros Hm. split; intros Hu Hlacks.
  - rewrite (handler_records net req s Hu Hm), recordsRoute_run.
    unfold lacks in Hlacks.
    destruct Hlacks as [-> | ->]; simpl; [|rewrite orb_true_r]; reflexivity.
  - rewrite (handler_contactList net req s Hu Hm), contactListRoute_run.
    unfold lacks in Hlacks.
    destruct Hlacks as [-> | [-> | ->]]; simpl;
      rewrite ?orb_true_r; reflexivity.
Qed.

Lemma validation_rejects_witness :
  let noKey := mkRequest "POST" "/api/records" [Sample.noKeyText] in
  let noArray := mkRequest "POST" "/api/contact/list" [Sample.idsNotArrayText] in
  let s := mkState (Some (Sample.host 1)) [] [] in
  lacks (@requestFields Sample.platform noKey) "apiKey"
  /\ isArray (getProp (@requestFields Sample.platform noArray) "userProfileIds")
     = false
  /\ fst (@handler Sample.platform (Sample.answers []) noKey s)
     = Ok (respond 400 jsonContentType
             (Sample.stringify (errorObject "apiKey and objectKey are required")))
  /\ snd (@handler Sample.platform (Sample.answers []) noKey s) = s
  /\ snd (@handler Sample.platform (Sample.answers []) noArray s) = s.
Proof.
  intros noKey noArray s.
  assert (H1 : lacks (@requestFields Sample.platform noKey) "apiKey")
    by reflexivity.
  assert (H2 : isArray (getProp (@requestFields Sample.platform noArray)
                          "userProfileIds") = false) by reflexivity.
  split; [exact H1|]. split; [exact H2|].
  pose proof (proj1 (@validation_rejects Sample.platform (Sample.answers [])
                       noKey s eq_refl) eq_refl (or_introl H1)) as Ha.
  pose proof (proj2 (@validation_rejects Sample.platform (Sample.answers [])
                       noArray s eq_refl) eq_refl (or_intror (or_intror H2)))
    as Hb.
  rewrite Ha, Hb. repeat split.
Defined.

(* ================================================================== *)
(** ** Exhaustion *)

Lemma Forall2_length {A B : Type} (R : A -> B -> Prop) (l : list A)
    (l' : list B) :
  Forall2 R l l' -> length l = length l'.
Proof. induction 1; simpl; congruence. Qed.

(** C4. When the attempt at every host of the ordering fails (a status that
    is no success, or a transport error), either proxy returns status 502
    with the body [{ error: "All base URLs failed", attempts }] serialised,
    where [attempts] has one entry per configured host, the entry of a host
    names it and holds the status and body of its rejection or the message
    of its transport error; every host got its request and nothing was
    pinned. *)
Theorem exhaustion_502 {platform : Platform} (net : network)
    (apiKey objectKey ct : jsval) (key : string) (payload : json) (s : state) :
  pinnedValid s ->
  (encodeURIComponent objectKey = Some key ->
   (forall base, In base (getBasesToTry s) ->
      recordsAttemptFails (net (recordsRequest apiKey ct key base))) ->
   exists attempts,
     fetchViaAvailableBase net apiKey objectKey ct s
     = (Ok (mkUpstream 502
              (JSON_stringify
                 (JObj [("error", JStr "All base URLs failed");
                        ("attempts", JArr attempts)]))),
        after None (map (recordsRequest apiKey ct key) (getBasesToTry s)) s)
     /\ length attempts = length BASE_URLS
     /\ Forall2
          (fun base attempt =>
             describes orStatus500 base
               (net (recordsRequest apiKey ct key base)) attempt)
          (getBasesToTry s) attempts)
  /\ ((forall base, In base (getBasesToTry s) ->
         contactListAttemptFails (net (contactListRequest apiKey payload base))) ->
      exists attempts,
        postViaAvailableBase net apiKey payload s
        = (Ok (mkUpstream 502
                 (JSON_stringify
                    (JObj [("error", JStr "All base URLs failed");
                           ("attempts", JArr attempts)]))),
           after None (map (contactListRequest apiKey payload) (getBasesToTry s)) s)
        /\ length attempts = length BASE_URLS
        /\ Forall2
             (fun base attempt =>
                describes (fun code => code) base
                  (net (contactListRequest apiKey payload base)) attempt)
             (getBasesToTry s) attempts).
Proof.
  intros Hvalid. split.
  - intros Hkey Hfail.
    destruct (kept_all net (recordsRequest apiKey ct key) judgeRecords
                recordsAttemptFails orStatus500 judgeRecords_fails _ Hfail)
      as (attempts & Hkept & Hdesc).
    exists attempts. split; [|split; auto].
    + rewrite (fetchViaAvailableBase_run net apiKey objectKey ct key s Hkey).
      now rewrite (tryHosts_exhausted _ _ _ _ [] attempts Hkept).
    + rewrite <- (Forall2_length _ _ _ Hkept).
      now apply getBasesToTry_length.
  - intros Hfail.
    destruct (kept_all net (contactListRequest apiKey payload) judgeContactList
                contactListAttemptFails (fun code => code) judgeContactList_fails _
              Hfail)
      as (attempts & Hkept & Hdesc).
    exists attempts. split; [|split; auto].
    + rewrite postViaAvailableBase_run.
      now rewrite (tryHosts_exhausted _ _ _ _ [] attempts Hkept).
    + rewrite <- (Forall2_length _ _ _ Hkept).
      now apply getBasesToTry_length.
Qed.

Lemma exhaustion_502_witness :
  let net := Sample.answers [] in
  let apiKey := Some (JStr "k-1") in
  let objectKey := Some (JStr "orders") in
  let ct := Some (JStr "") in
  pinnedValid initialState
  /\ @encodeURIComponent Sample.platform objectKey = Some "orders"
  /\ (forall base, In base (getBasesToTry initialState) ->
        recordsAttemptFails
          (net (@recordsRequest Sample.platform apiKey ct "orders" base)))
  /\ exists attempts,
       fst (@fetchViaAvailableBase Sample.platform net apiKey objectKey ct
              initialState)
       = Ok (mkUpstream 502
               (Sample.stringify
                  (JObj [("error", JStr "All base URLs failed");
                         ("attempts", JArr attempts)])))
       /\ length attempts = 5%nat.
Proof.
  intros net apiKey objectKey ct.
  assert (H1 : pinnedValid initialState) by exact I.
  assert (H2 : @encodeURIComponent Sample.platform objectKey = Some "orders")
    by reflexivity.
  assert (H3 : forall base, In base (getBasesToTry initialState) ->
             recordsAttemptFails
               (net (@recordsRequest Sample.platform apiKey ct "orders" base))).
  { intros base Hin. simpl in Hin.
    repeat (destruct Hin as [<-|Hin]; [exact I|]). contradiction. }
  split; [exact H1|]. split; [exact H2|]. split; [exact H3|].
  destruct (proj1 (@exhaustion_502 Sample.platform net apiKey objectKey ct
                     "orders" JNull initialState H1) H2 H3)
    as (attempts & Hrun & Hlen & _).
  exists attempts. split; [now rewrite Hrun|exact Hlen].
Defined.

(* ================================================================== *)
(** ** A body that is not JSON *)

(** C5, as the code has it.  A body that [JSON.parse] rejects never reaches
    the catch block of a route: [readJsonBody] catches the failure itself
    and returns the empty object, so the route answers 400 for the missing
    fields, sends nothing upstream and logs nothing.  What does reach the
    catch block of [/api/records] is [encodeURIComponent] throwing on the
    object key: the error is logged and the answer is 500 with the fixed
    message, whatever the error was. *)
Theorem malformed_body_rejected {platform : Platform} (net : network)
    (req : request) (s : state) :
  reqMethod req = "POST" ->
  (reqUrl req = "/api/records" ->
   JSON_parse (String.concat "" (reqChunks req)) = None ->
   handler net req s
   = (Ok (respond 400 jsonContentType
            (JSON_stringify
               (JObj [("error", JStr "apiKey and objectKey are required")]))),
      s))
  /\ (reqUrl req = "/api/contact/list" ->
      JSON_parse (String.concat "" (reqChunks req)) = None ->
      handler net req s
      = (Ok (respond 400 jsonContentType
               (JSON_stringify
                  (JObj [("error",
                          JStr "apiKey, groupListName, and userProfileIds are required")]))),
         s))
  /\ (reqUrl req = "/api/records" ->
      truthy (getProp (requestFields req) "apiKey") = true ->
      truthy (getProp (requestFields req) "objectKey") = true ->
      encodeURIComponent (getProp (requestFields req) "objectKey") = None ->
      handler net req s
      = (Ok (respond 500 jsonContentType
               (JSON_stringify (JObj [("error", JStr "Internal server error")]))),
         mkState (pinnedBaseUrl s) (outbound s) (console s ++ [URIError_message]))).
Proof.
  intros Hm.
  assert (Hempty : JSON_parse (String.concat "" (reqChunks req)) = None ->
                   requestFields req = JObj []).
  { intros Hp. unfold requestFields. rewrite Hp.
    now destruct (String.concat "" (reqChunks req) =? "")%string. }
  split; [|split].
  - intros Hu Hp.
    rewrite (handler_records net req s Hu Hm), recordsRoute_run.
    now rewrite (Hempty Hp).
  - intros Hu Hp.
    rewrite (handler_contactList net req s Hu Hm), contactListRoute_run.
    now rewrite (Hempty Hp).
  - intros Hu Ha Ho Henc.
    rewrite (handler_records net req s Hu Hm), recordsRoute_run.
    rewrite Ha, Ho. cbn [negb orb].
    now rewrite (fetchViaAvailableBase_throws net _ _ _ s Henc).
Qed.

Lemma malformed_body_rejected_witness :
  let req := mkRequest "POST" "/api/contact/list" [Sample.malformedText] in
  let bad := mkRequest "POST" "/api/records" [Sample.surrogateText] in
  let objectKey := getProp (@requestFields Sample.platform bad) "objectKey" in
  @JSON_parse Sample.platform (String.concat "" (reqChunks req)) = None
  /\ @handler Sample.platform (Sample.answers []) req initialState
     = (Ok (respond 400 jsonContentType
              (Sample.stringify
                 (errorObject
                    "apiKey, groupListName, and userProfileIds are required"))),
        initialState)
  /\ truthy objectKey = true
  /\ @encodeURIComponent Sample.platform objectKey = None
  /\ @handler Sample.platform (Sample.answers []) bad initialState
     = (Ok (respond 500 jsonContentType
              (Sample.stringify (errorObject "Internal server error"))),
        mkState None [] ["URI malformed"]).
Proof.
  intros req bad objectKey.
  assert (H : @JSON_parse Sample.platform (String.concat "" (reqChunks req))
              = None) by reflexivity.
  assert (Ho : truthy objectKey = true) by reflexivity.
  assert (He : @encodeURIComponent Sample.platform objectKey = None)
    by reflexivity.
  split; [exact H|]. split.
  - exact (proj1 (proj2 (@malformed_body_rejected Sample.platform
                           (Sample.answers []) req initialState eq_refl))
             eq_refl H).
  - split; [exact Ho|]. split; [exact He|].
    exact (proj2 (proj2 (@malformed_body_rejected Sample.platform
                           (Sample.answers []) bad initialState eq_refl))
             eq_refl eq_refl Ho He).
Defined.

(** C5 as stated fails: the body [{] is not JSON, and the answer to it is
    400, with nothing logged. *)
Lemma malformed_body_counterexample :
  @JSON_parse Sample.platform Sample.malformedText = None
  /\ @handler Sample.platform (Sample.answers [])
       (mkRequest "POST" "/api/records" [Sample.malformedText]) initialState
     = (Ok (mkResponse 400
              (corsHeaders ++ [("Content-Type", "application/json")])
              (Sample.stringify
                 (JObj [("error", JStr "apiKey and objectKey are required")]))),
        initialState).
Proof. split; reflexivity. Qed.

(* ================================================================== *)
(** ** Failover pins the host that answered *)

(** The record fetch when the hosts before [base] fail and [base] answers
    200. *)
Lemma fetchViaAvailableBase_accepted {platform : Platform} (net : network)
    (apiKey objectKey ct : jsval) (key : string) (s : state)
    (pre : list string) (base : string) (post : list string) (text : string) :
  encodeURIComponent objectKey = Some key ->
  getBasesToTry s = pre ++ base :: post ->
  (forall b, In b pre ->
     recordsAttemptFails (net (recordsRequest apiKey ct key b))) ->
  net (recordsRequest apiKey ct key base) = Responded 200 text ->
  fetchViaAvailableBase net apiKey objectKey ct s
  = (Ok (mkUpstream 200 text),
     after (Some base) (map (recordsRequest apiKey ct key) (pre ++ [base])) s).
Proof.
  intros Hkey Hord Hfail Hok.
  rewrite (fetchViaAvailableBase_run net apiKey objectKey ct key s Hkey), Hord.
  destruct (kept_all net (recordsRequest apiKey ct key) judgeRecords
              recordsAttemptFails orStatus500 judgeRecords_fails _ Hfail)
    as (attempts & Hkept & _).
  rewrite (tryHosts_accepted net _ judgeRecords pre base post
             (mkUpstream 200 text) [] attempts Hkept); [reflexivity|].
  now rewrite Hok.
Qed.

(** The contact list when the hosts before [base] fail and [base] answers
    with a 2xx. *)
Lemma postViaAvailableBase_accepted {platform : Platform} (net : network)
    (apiKey : jsval) (payload : json) (s : state)
    (pre : list string) (base : string) (post : list string)
    (code : Z) (text : string) :
  getBasesToTry s = pre ++ base :: post ->
  (forall b, In b pre ->
     contactListAttemptFails (net (contactListRequest apiKey payload b))) ->
  net (contactListRequest apiKey payload base) = Responded code text ->
  200 <= code <= 299 ->
  postViaAvailableBase net apiKey payload s
  = (Ok (mkUpstream code text),
     after (Some base) (map (contactListRequest apiKey payload) (pre ++ [base])) s).
Proof.
  intros Hord Hfail Hok Hcode.
  rewrite postViaAvailableBase_run, Hord.
  destruct (kept_all net (contactListRequest apiKey payload) judgeContactList
              contactListAttemptFails (fun code => code) judgeContactList_fails _
              Hfail)
    as (attempts & Hkept & _).
  rewrite (tryHosts_accepted net _ judgeContactList pre base post
             (mkUpstream code text) [] attempts Hkept); [reflexivity|].
  rewrite Hok. now apply judgeContactList_ok.
Qed.

(** C6. When the attempt at host [A] fails and the attempt at host [B] then
    succeeds (every host tried before [B], [A] among them, failed), the
    pinned host after the call is [B], and the ordering computed from that
    state, or from any state with the same pin, starts with [B]. *)
Theorem failover_pins_succeeding_host {platform : Platform} (net : network)
    (apiKey objectKey ct : jsval) (key : string) (payload : json) (s : state)
    (pre : list string) (A B : string) (post : list string) :
  getBasesToTry s = pre ++ B :: post ->
  In A pre ->
  (encodeURIComponent objectKey = Some key ->
   (forall base, In base pre ->
      recordsAttemptFails (net (recordsRequest apiKey ct key base))) ->
   (exists text, net (recordsRequest apiKey ct key B) = Responded 200 text) ->
   let s' := snd (fetchViaAvailableBase net apiKey objectKey ct s) in
   pinnedBaseUrl s' = Some B
   /\ forall later, pinnedBaseUrl later = pinnedBaseUrl s' ->
        exists rest, getBasesToTry later = B :: rest)
  /\ ((forall base, In base pre ->
         contactListAttemptFails (net (contactListRequest apiKey payload base))) ->
      (exists code text,
          net (contactListRequest apiKey payload B) = Responded code text
          /\ 200 <= code <= 299) ->
      let s' := snd (postViaAvailableBase net apiKey payload s) in
      pinnedBaseUrl s' = Some B
      /\ forall later, pinnedBaseUrl later = pinnedBaseUrl s' ->
           exists rest, getBasesToTry later = B :: rest).
Proof.
  intros Hord HA.
  assert (HB : B <> "").
  { apply (getBasesToTry_nonempty s). rewrite Hord.
    apply in_or_app. right. now left. }
  assert (Hlater : forall later, pinnedBaseUrl later = Some B ->
                     exists rest, getBasesToTry later = B :: rest).
  { intros later Hp. unfold getBasesToTry. rewrite Hp.
    rewrite (proj2 (String.eqb_neq _ _) HB). eexists. reflexivity. }
  split.
  - intros Hkey Hfail (text & Hok). cbv zeta.
    rewrite (fetchViaAvailableBase_accepted net apiKey objectKey ct key s
               pre B post text Hkey Hord Hfail Hok).
    simpl. split; auto.
  - intros Hfail (code & text & Hok & Hcode). cbv zeta.
    rewrite (postViaAvailableBase_accepted net apiKey payload s
               pre B post code text Hord Hfail Hok Hcode).
    simpl. split; auto.
Qed.

Lemma failover_pins_succeeding_host_witness :
  let net := Sample.answers [ (Sample.host 0, Responded 503 "busy");
                              (Sample.host 1, Failed "ECONNRESET");
                              (Sample.host 2, Responded 200 "{}") ] in
  let apiKey := Some (JStr "k-1") in
  let objectKey := Some (JStr "orders") in
  let ct := Some (JStr "") in
  let pre := [Sample.host 0; Sample.host 1] in
  getBasesToTry initialState
  = pre ++ Sample.host 2 :: [Sample.host 3; Sample.host 4]
  /\ In (Sample.host 0) pre
  /\ @encodeURIComponent Sample.platform objectKey = Some "orders"
  /\ (forall base, In base pre ->
        recordsAttemptFails
          (net (@recordsRequest Sample.platform apiKey ct "orders" base)))
  /\ net (@recordsRequest Sample.platform apiKey ct "orders" (Sample.host 2))
     = Responded 200 "{}"
  /\ pinnedBaseUrl
       (snd (@fetchViaAvailableBase Sample.platform net apiKey objectKey ct
               initialState))
     = Some (Sample.host 2).
Proof.
  intros net apiKey objectKey ct pre.
  assert (H1 : getBasesToTry initialState
               = pre ++ Sample.host 2 :: [Sample.host 3; Sample.host 4])
    by reflexivity.
  assert (H2 : In (Sample.host 0) pre) by (left; reflexivity).
  assert (H3 : @encodeURIComponent Sample.platform objectKey = Some "orders")
    by reflexivity.
  assert (H4 : forall base, In base pre ->
             recordsAttemptFails
               (net (@recordsRequest Sample.platform apiKey ct "orders" base))).
  { intros base [<-|[<-|[]]]; [discriminate|exact I]. }
  assert (H5 : net (@recordsRequest Sample.platform apiKey ct "orders"
                      (Sample.host 2)) = Responded 200 "{}") by reflexivity.
  split; [exact H1|]. split; [exact H2|]. split; [exact H3|].
  split; [exact H4|]. split; [exact H5|].
  exact (proj1 (proj1 (@failover_pins_succeeding_host Sample.platform net
                         apiKey objectKey ct "orders" JNull initialState
                         pre (Sample.host 0) (Sample.host 2)
                         [Sample.host 3; Sample.host 4] H1 H2)
                  H3 H4 (ex_intro _ "{}" H5))).
Defined.

(* ================================================================== *)
(** ** What the client receives *)

(** Whether Node sends the body the handler wrote ([_hasBody] of the
    response): not in answer to a HEAD request, and not under the statuses
    204, 304 and 1xx, which carry no body.  What was passed to [res.end] is
    then dropped. *)
Definition hasBody (method : string) (status : Z) : bool :=
  negb ((method =? "HEAD")%string
        || (status =? 204) || (status =? 304)
        || ((100 <=? status) && (status <=? 199))).

(** The body the client receives for what the handler wrote to [res]. *)
Definition receivedBody (req : request) (resp : response) : string :=
  if hasBody (reqMethod req) (resStatus resp) then resBody resp
  else EmptyString.

(** Under a 2xx answered to a POST the body is sent, but for 204. *)
Lemma hasBody_POST_2xx (code : Z) :
  200 <= code <= 299 -> hasBody "POST" code = negb (code =? 204).
Proof.
  intros Hcode. unfold hasBody. cbn [String.eqb Ascii.eqb Bool.eqb orb].
  assert ((code =? 304) = false) as -> by (apply Z.eqb_neq; lia).
  assert ((code <=? 199) = false) as -> by (apply Z.leb_gt; lia).
  now rewrite andb_false_r, !orb_false_r.
Qed.

(* ================================================================== *)
(** ** A success, as the client sees it *)

(** [/api/records] when the hosts before [base] fail and [base] answers
    200. *)
Lemma handler_records_accepted {platform : Platform} (net : network)
    (req : request) (key : string) (s : state)
    (pre : list string) (base : string) (post : list string) (text : string) :
  let apiKey := getProp (requestFields req) "apiKey" in
  let objectKey := getProp (requestFields req) "objectKey" in
  let get := recordsRequest apiKey (continuationTokenOf req) key in
  reqMethod req = "POST" -> reqUrl req = "/api/records" ->
  truthy apiKey = true -> truthy objectKey = true ->
  encodeURIComponent objectKey = Some key ->
  getBasesToTry s = pre ++ base :: post ->
  (forall b, In b pre -> recordsAttemptFails (net (get b))) ->
  net (get base) = Responded 200 text ->
  handler net req s
  = (Ok (respond 200 jsonContentType (orEmptyJson text)),
     after (Some base) (map get (pre ++ [base])) s).
Proof.
  intros apiKey objectKey get Hm Hu Ha Ho Hkey Hord Hfail Hok.
  rewrite (handler_records net req s Hu Hm), recordsRoute_run.
  fold apiKey objectKey. rewrite Ha, Ho. cbn [negb orb].
  now rewrite (fetchViaAvailableBase_accepted net apiKey objectKey _ key s
                 pre base post text Hkey Hord Hfail Hok).
Qed.

(** [/api/contact/list] when the hosts before [base] fail and [base]
    answers with a 2xx. *)
Lemma handler_contactList_accepted {platform : Platform} (net : network)
    (req : request) (s : state)
    (pre : list string) (base : string) (post : list string)
    (code : Z) (text : string) :
  let apiKey := getProp (requestFields req) "apiKey" in
  let post' := contactListRequest apiKey (contactListPayload req) in
  reqMethod req = "POST" -> reqUrl req = "/api/contact/list" ->
  truthy apiKey = true ->
  truthy (getProp (requestFields req) "groupListName") = true ->
  isArray (getProp (requestFields req) "userProfileIds") = true ->
  getBasesToTry s = pre ++ base :: post ->
  (forall b, In b pre -> contactListAttemptFails (net (post' b))) ->
  net (post' base) = Responded code text ->
  200 <= code <= 299 ->
  handler net req s
  = (Ok (respond code jsonContentType (orEmptyJson text)),
     after (Some base) (map post' (pre ++ [base])) s).
Proof.
  intros apiKey post' Hm Hu Ha Hg Hi Hord Hfail Hok Hcode.
  rewrite (handler_contactList net req s Hu Hm), contactListRoute_run.
  fold apiKey. rewrite Ha, Hg, Hi. cbn [negb orb].
  now rewrite (postViaAvailableBase_accepted net apiKey _ s
                 pre base post code text Hord Hfail Hok Hcode).
Qed.

(** C7, as the code has it.  When the first host of the ordering answers
    with a success (200 to a record fetch, any 2xx to a contact list), the
    proxy returns that host's status and body text as they are, the host is
    pinned, and the one request sent is the one to that host.  The handler
    writes that status, and that body unless it is empty: for an empty body
    it writes [{}].  The client receives what the handler wrote, but under
    the status 204 (a contact list only), where it receives no body. *)
Theorem first_host_success {platform : Platform} (net : network)
    (req : request) (s : state) (first : string) (rest : list string)
    (text : string) :
  let apiKey := getProp (requestFields req) "apiKey" in
  let written := if (text =? "")%string then "{}" else text in
  reqMethod req = "POST" ->
  truthy apiKey = true ->
  getBasesToTry s = first :: rest ->
  (forall key,
      let objectKey := getProp (requestFields req) "objectKey" in
      let get := recordsRequest apiKey (continuationTokenOf req) key first in
      reqUrl req = "/api/records" ->
      truthy objectKey = true ->
      encodeURIComponent objectKey = Some key ->
      net get = Responded 200 text ->
      fetchViaAvailableBase net apiKey objectKey (continuationTokenOf req) s
      = (Ok (mkUpstream 200 text), after (Some first) [get] s)
      /\ handler net req s
         = (Ok (respond 200 jsonContentType written),
            after (Some first) [get] s)
      /\ receivedBody req (respond 200 jsonContentType written) = written)
  /\ (forall code,
         let post := contactListRequest apiKey (contactListPayload req) first in
         reqUrl req = "/api/contact/list" ->
         truthy (getProp (requestFields req) "groupListName") = true ->
         isArray (getProp (requestFields req) "userProfileIds") = true ->
         net post = Responded code text ->
         200 <= code <= 299 ->
         postViaAvailableBase net apiKey (contactListPayload req) s
         = (Ok (mkUpstream code text), after (Some first) [post] s)
         /\ handler net req s
            = (Ok (respond code jsonContentType written),
               after (Some first) [post] s)
         /\ receivedBody req (respond code jsonContentType written)
            = if code =? 204 then "" else written).
Proof.
  intros apiKey written Hm Ha Hord.
  assert (Hnone : forall fails : netOutcome -> Prop,
             forall (r : string -> outReq) b, In b [] -> fails (net (r b)))
    by (intros ? ? ? []).
  split.
  - intros key objectKey get Hu Ho Hkey Hok. split; [|split].
    + exact (fetchViaAvailableBase_accepted net apiKey objectKey _ key s
               [] first rest text Hkey Hord (Hnone _ _) Hok).
    + exact (handler_records_accepted net req key s [] first rest text
               Hm Hu Ha Ho Hkey Hord (Hnone _ _) Hok).
    + unfold receivedBody. rewrite Hm. reflexivity.
  - intros code post Hu Hg Hi Hok Hcode. split; [|split].
    + exact (postViaAvailableBase_accepted net apiKey _ s [] first rest
               code text Hord (Hnone _ _) Hok Hcode).
    + exact (handler_contactList_accepted net req s [] first rest code text
               Hm Hu Ha Hg Hi Hord (Hnone _ _) Hok Hcode).
    + unfold receivedBody. rewrite Hm. cbn [resStatus respond resBody].
      rewrite (hasBody_POST_2xx code Hcode).
      now destruct (code =? 204).
Qed.

Lemma first_host_success_witness :
  let net := Sample.answers [(Sample.host 0, Responded 200 "[1,2]")] in
  let req := Sample.recordsRequestIn in
  let apiKey := getProp (@requestFields Sample.platform req) "apiKey" in
  let objectKey := getProp (@requestFields Sample.platform req) "objectKey" in
  let get := @recordsRequest Sample.platform apiKey
               (@continuationTokenOf Sample.platform req) "orders"
               (Sample.host 0) in
  truthy apiKey = true
  /\ getBasesToTry initialState = Sample.host 0 :: tl BASE_URLS
  /\ truthy objectKey = true
  /\ @encodeURIComponent Sample.platform objectKey = Some "orders"
  /\ net get = Responded 200 "[1,2]"
  /\ @handler Sample.platform net req initialState
     = (Ok (respond 200 jsonContentType "[1,2]"),
        mkState (Some (Sample.host 0)) [get] [])
  /\ receivedBody req (respond 200 jsonContentType "[1,2]") = "[1,2]".
Proof.
  intros net req apiKey objectKey get.
  assert (H1 : truthy apiKey = true) by reflexivity.
  assert (H2 : getBasesToTry initialState = Sample.host 0 :: tl BASE_URLS)
    by reflexivity.
  assert (H3 : truthy objectKey = true) by reflexivity.
  assert (H4 : @encodeURIComponent Sample.platform objectKey = Some "orders")
    by reflexivity.
  assert (H5 : net get = Responded 200 "[1,2]") by reflexivity.
  split; [exact H1|]. split; [exact H2|]. split; [exact H3|].
  split; [exact H4|]. split; [exact H5|].
  exact (proj2 (proj1 (@first_host_success Sample.platform net req
                         initialState (Sample.host 0) (tl BASE_URLS) "[1,2]"
                         eq_refl H1 H2)
                  "orders" eq_refl H3 H4 H5)).
Defined.

(** C7 as stated fails at the client: the first host answers 200 with an
    empty body, the handler writes the body [{}] under the status 200, and
    that is the body the client receives. *)
Lemma first_host_success_counterexample :
  let net := Sample.answers [(Sample.host 0, Responded 200 "")] in
  let req := Sample.recordsRequestIn in
  let get := @recordsRequest Sample.platform (Some (JStr "k-1"))
               (Some (JStr "")) "orders" (Sample.host 0) in
  let written := mkResponse 200
                   (corsHeaders ++ [("Content-Type", "application/json")])
                   "{}" in
  hd_error (getBasesToTry initialState) = Some (Sample.host 0)
  /\ net get = Responded 200 ""
  /\ @handler Sample.platform net req initialState
     = (Ok written, mkState (Some (Sample.host 0)) [get] [])
  /\ receivedBody req written = "{}".
Proof. repeat split. Qed.

(* ================================================================== *)
(** ** The empty body *)

(** C10, as the code has it.  When a call succeeds at a host whose
    response body is the empty string, the handler writes the body [{}]
    under the status of that host.  The client receives the body [{}] under
    every such status but 204: always from a record fetch, whose success is
    a 200, and from a contact list unless the host answered 204, under
    which no body is sent and the client receives the empty body. *)
Theorem empty_body_answered_as_object {platform : Platform} (net : network)
    (req : request) (s : state)
    (pre : list string) (base : string) (post : list string) :
  let apiKey := getProp (requestFields req) "apiKey" in
  reqMethod req = "POST" ->
  truthy apiKey = true ->
  getBasesToTry s = pre ++ base :: post ->
  (forall key,
      let objectKey := getProp (requestFields req) "objectKey" in
      let get := recordsRequest apiKey (continuationTokenOf req) key in
      reqUrl req = "/api/records" ->
      truthy objectKey = true ->
      encodeURIComponent objectKey = Some key ->
      (forall b, In b pre -> recordsAttemptFails (net (get b))) ->
      net (get base) = Responded 200 "" ->
      handler net req s
      = (Ok (respond 200 jsonContentType "{}"),
         after (Some base) (map get (pre ++ [base])) s)
      /\ receivedBody req (respond 200 jsonContentType "{}") = "{}")
  /\ (forall code,
         let post' := contactListRequest apiKey (contactListPayload req) in
         reqUrl req = "/api/contact/list" ->
         truthy (getProp (requestFields req) "groupListName") = true ->
         isArray (getProp (requestFields req) "userProfileIds") = true ->
         (forall b, In b pre -> contactListAttemptFails (net (post' b))) ->
         net (post' base) = Responded code "" ->
         200 <= code <= 299 ->
         handler net req s
         = (Ok (respond code jsonContentType "{}"),
            after (Some base) (map post' (pre ++ [base])) s)
         /\ receivedBody req (respond code jsonContentType "{}")
            = if code =? 204 then "" else "{}").
Proof.
  intros apiKey Hm Ha Hord. split.
  - intros key objectKey get Hu Ho Hkey Hfail Hok. split.
    + exact (handler_records_accepted net req key s pre base post ""
               Hm Hu Ha Ho Hkey Hord Hfail Hok).
    + unfold receivedBody. rewrite Hm. reflexivity.
  - intros code post' Hu Hg Hi Hfail Hok Hcode. split.
    + exact (handler_contactList_accepted net req s pre base post code ""
               Hm Hu Ha Hg Hi Hord Hfail Hok Hcode).
    + unfold receivedBody. rewrite Hm. cbn [resStatus respond resBody].
      rewrite (hasBody_POST_2xx code Hcode).
      now destruct (code =? 204).
Qed.

Lemma empty_body_answered_as_object_witness :
  let net := Sample.answers [ (Sample.host 0, Responded 500 "down");
                              (Sample.host 1, Responded 201 "") ] in
  let req := Sample.contactRequestIn in
  let apiKey := getProp (@requestFields Sample.platform req) "apiKey" in
  let post' := @contactListRequest Sample.platform apiKey
                 (@contactListPayload Sample.platform req) in
  truthy apiKey = true
  /\ getBasesToTry initialState
     = [Sample.host 0] ++ Sample.host 1 :: tl (tl BASE_URLS)
  /\ (forall b, In b [Sample.host 0] -> contactListAttemptFails (net (post' b)))
  /\ net (post' (Sample.host 1)) = Responded 201 ""
  /\ @handler Sample.platform net req initialState
     = (Ok (respond 201 jsonContentType "{}"),
        after (Some (Sample.host 1))
          (map post' ([Sample.host 0] ++ [Sample.host 1])) initialState)
  /\ receivedBody req (respond 201 jsonContentType "{}") = "{}".
Proof.
  intros net req apiKey post'.
  assert (H1 : truthy apiKey = true) by reflexivity.
  assert (H2 : getBasesToTry initialState
               = [Sample.host 0] ++ Sample.host 1 :: tl (tl BASE_URLS))
    by reflexivity.
  assert (H3 : forall b, In b [Sample.host 0] ->
             contactListAttemptFails (net (post' b))).
  { intros b [<-|[]]. simpl. lia. }
  assert (H4 : net (post' (Sample.host 1)) = Responded 201 "") by reflexivity.
  split; [exact H1|]. split; [exact H2|]. split; [exact H3|].
  split; [exact H4|].
  refine (proj2 (@empty_body_answered_as_object Sample.platform net req
                   initialState [Sample.host 0] (Sample.host 1)
                   (tl (tl BASE_URLS)) eq_refl H1 H2)
            201 eq_refl eq_refl eq_refl H3 H4 _).
  lia.
Defined.

(** C10 as stated fails under the status 204: the first host answers a
    contact list with 204 and an empty body, the handler writes [{}] under
    204, and the client receives the empty body. *)
Lemma empty_body_counterexample :
  let net := Sample.answers [(Sample.host 0, Responded 204 "")] in
  let req := Sample.contactRequestIn in
  let post := @contactListRequest Sample.platform (Some (JStr "k-1"))
                (@contactListPayload Sample.platform req) (Sample.host 0) in
  let written := mkResponse 204
                   (corsHeaders ++ [("Content-Type", "application/json")])
                   "{}" in
  hd_error (getBasesToTry initialState) = Some (Sample.host 0)
  /\ net post = Responded 204 ""
  /\ @handler Sample.platform net req initialState
     = (Ok written, mkState (Some (Sample.host 0)) [post] [])
  /\ receivedBody req written = "".
Proof. repeat split. Qed.

(* ================================================================== *)
(** ** Pinning is idempotent *)

(** The ordering of a state whose pin is a named host. *)
Lemma getBasesToTry_pinned (s : state) (H : string) :
  pinnedBaseUrl s = Some H -> H <> "" ->
  getBasesToTry s = H :: filter (fun base => negb (base =? H)%string) BASE_URLS.
Proof.
  intros Hp Hne. unfold getBasesToTry. rewrite Hp.
  now rewrite (proj2 (String.eqb_neq _ _) Hne).
Qed.

(** A call that succeeds on the pinned host sends it one request and leaves
    it pinned. *)
Lemma runCall_on_pinned {platform : Platform} (H : string) (c : relayCall)
    (s : state) :
  pinnedBaseUrl s = Some H -> H <> "" -> succeedsOn H c ->
  exists r, snd (runCall c s) = after (Some H) [r] s.
Proof.
  intros Hp Hne Hok. pose proof (getBasesToTry_pinned s H Hp Hne) as Hord.
  destruct c as [net apiKey objectKey ct|net apiKey payload]; simpl in *.
  - destruct Hok as (key & text & Hkey & Hok). eexists.
    rewrite (fetchViaAvailableBase_accepted net apiKey objectKey ct key s
               [] H _ text Hkey Hord (fun b (F : In b []) => match F with end)
               Hok).
    reflexivity.
  - destruct Hok as (code & text & Hok & Hcode). eexists.
    rewrite (postViaAvailableBase_accepted net apiKey payload s
               [] H _ code text Hord (fun b (F : In b []) => match F with end)
               Hok Hcode).
    reflexivity.
Qed.

(** C8. With host [H] pinned, after any number of relay calls that each
    succeed on [H] the pinned host is still [H] and the ordering is what it
    was: [H] first, then the other hosts in the order of the fixed list. *)
Theorem pinning_idempotent {platform : Platform} (H : string)
    (calls : list relayCall) (s : state) :
  pinnedBaseUrl s = Some H ->
  In H BASE_URLS ->
  Forall (succeedsOn H) calls ->
  pinnedBaseUrl (runCalls calls s) = Some H
  /\ getBasesToTry (runCalls calls s) = getBasesToTry s
  /\ getBasesToTry s
     = H :: filter (fun base => negb (base =? H)%string) BASE_URLS.
Proof.
  intros Hp Hin Hall. pose proof (BASE_URLS_nonempty H Hin) as Hne.
  revert s Hp. induction Hall as [|c rest Hc Hrest IH]; intros s Hp.
  - simpl. repeat split; auto. now apply getBasesToTry_pinned.
  - cbn [runCalls].
    destruct (runCall_on_pinned H c s Hp Hne Hc) as (r & Hs).
    destruct (IH (snd (runCall c s))) as (IH1 & IH2 & IH3).
    { now rewrite Hs. }
    repeat split; auto.
    + rewrite IH2, Hs. rewrite (getBasesToTry_after_pin H [r] s Hne).
      symmetry. now apply getBasesToTry_pinned.
    + now apply getBasesToTry_pinned.
Qed.

Lemma pinning_idempotent_witness :
  let net := Sample.answers [(Sample.host 3, Responded 200 "{}")] in
  let calls :=
    [ @RecordFetch net (Some (JStr "k-1")) (Some (JStr "orders")) (Some (JStr ""));
      @ContactList net (Some (JStr "k-1")) JNull ] in
  let s := mkState (Some (Sample.host 3)) [] [] in
  In (Sample.host 3) BASE_URLS
  /\ Forall (@succeedsOn Sample.platform (Sample.host 3)) calls
  /\ pinnedBaseUrl (@runCalls Sample.platform calls s) = Some (Sample.host 3)
  /\ getBasesToTry (@runCalls Sample.platform calls s)
     = [Sample.host 3; Sample.host 0; Sample.host 1; Sample.host 2;
        Sample.host 4].
Proof.
  intros net calls s.
  assert (H1 : In (Sample.host 3) BASE_URLS)
    by (do 3 right; left; reflexivity).
  assert (H2 : Forall (@succeedsOn Sample.platform (Sample.host 3)) calls).
  { repeat constructor.
    - exists "orders", "{}". split; reflexivity.
    - exists 200, "{}". split; [reflexivity|lia]. }
  split; [exact H1|]. split; [exact H2|].
  destruct (@pinning_idempotent Sample.platform (Sample.host 3) calls s
              eq_refl H1 H2) as (Hpin & Hord & _).
  split; [exact Hpin|]. rewrite Hord. reflexivity.
Defined.

(* ================================================================== *)
(** ** The life of the pinned host *)

Lemma grown_nil (pin : option string) (reqs : list outReq) (s : state) :
  after pin reqs s = grown pin reqs [] s.
Proof. unfold after, grown. now rewrite app_nil_r. Qed.

Lemma grown_same (s : state) : grown None [] [] s = s.
Proof. destruct s. unfold grown. simpl. now rewrite !app_nil_r. Qed.

(** A relay call either leaves the pin as it was, or returns the success of
    a host of the ordering and pins that host. *)
Lemma runCall_pin {platform : Platform} (c : relayCall) (s : state) :
  pinnedBaseUrl (snd (runCall c s)) = pinnedBaseUrl s
  \/ exists base resp,
       In base (getBasesToTry s)
       /\ succeedsOn base c
       /\ fst (runCall c s) = Ok resp
       /\ 200 <= status resp <= 299
       /\ pinnedBaseUrl (snd (runCall c s)) = Some base.
Proof.
  destruct c as [net apiKey objectKey ct|net apiKey payload]; simpl.
  - destruct (encodeURIComponent objectKey) as [key|] eqn:Hkey.
    + rewrite (fetchViaAvailableBase_run net apiKey objectKey ct key s Hkey).
      destruct (tryHosts net (recordsRequest apiKey ct key) judgeRecords
                  (getBasesToTry s) []) as [[resp pin] reqs] eqn:Hrun.
      apply tryHosts_inv in Hrun.
      destruct Hrun as [(_ & _ & _ & -> & _)
                       |(pre & base & post & _ & Hord & _ & Hj & -> & _)].
      * now left.
      * right. apply judgeRecords_inl in Hj. destruct Hj as (text & Ho & ->).
        exists base, (mkUpstream 200 text). repeat split; simpl; try lia.
        -- rewrite Hord. apply in_or_app. right. now left.
        -- now exists key, text.
    + rewrite (fetchViaAvailableBase_throws net apiKey objectKey ct s Hkey).
      now left.
  - rewrite postViaAvailableBase_run.
    destruct (tryHosts net (contactListRequest apiKey payload) judgeContactList
                (getBasesToTry s) []) as [[resp pin] reqs] eqn:Hrun.
    apply tryHosts_inv in Hrun.
    destruct Hrun as [(_ & _ & _ & -> & _)
                     |(pre & base & post & _ & Hord & _ & Hj & -> & _)].
    + now left.
    + right. apply judgeContactList_inl in Hj.
      destruct Hj as (code & text & Ho & Hcode & ->).
      exists base, (mkUpstream code text). repeat split; simpl; try lia.
      * rewrite Hord. apply in_or_app. right. now left.
      * now exists code, text.
Qed.

(** What serving a request does, for every state with the ordering of [s]:
    the response, the host pinned (if any), the requests sent and the lines
    logged are the same.  A host is pinned only under a 2xx response, and is
    a host of the ordering. *)
Lemma handler_effect {platform : Platform} (net : network) (req : request)
    (s : state) :
  exists resp pin reqs logs,
    (forall s2, getBasesToTry s2 = getBasesToTry s ->
       handler net req s2 = (Ok resp, grown pin reqs logs s2))
    /\ match pin with
       | None => True
       | Some base =>
           In base (getBasesToTry s) /\ 200 <= resStatus resp <= 299
       end.
Proof.
  assert (Hconst : forall resp : response,
             (forall s2, getBasesToTry s2 = getBasesToTry s ->
                (Ok resp, s2) = (Ok resp, grown None [] [] s2))
             /\ True).
  { intros resp. split; auto. intros s2 _. now rewrite grown_same. }
  unfold handler.
  destruct (reqMethod req =? "OPTIONS")%string.
  { eexists; exists None, [], []. apply Hconst. }
  destruct ((reqUrl req =? "/api/records")%string
            && (reqMethod req =? "POST")%string).
  { destruct (negb (truthy (getProp (requestFields req) "apiKey"))
              || negb (truthy (getProp (requestFields req) "objectKey")))
      eqn:Hvalid.
    - eexists; exists None, [], []. split; auto. intros s2 _.
      rewrite recordsRoute_run, Hvalid. now rewrite grown_same.
    - destruct (encodeURIComponent (getProp (requestFields req) "objectKey"))
        as [key|] eqn:Hkey.
      + destruct (tryHosts net
                    (recordsRequest (getProp (requestFields req) "apiKey")
                       (continuationTokenOf req) key)
                    judgeRecords (getBasesToTry s) [])
          as [[up pin] reqs] eqn:Hrun.
        exists (respond (status up) jsonContentType (orEmptyJson (body up))),
          pin, reqs, []. split.
        * intros s2 Hord. rewrite recordsRoute_run, Hvalid.
          rewrite (fetchViaAvailableBase_run net _ _ _ key s2 Hkey).
          rewrite Hord, Hrun. simpl. now rewrite grown_nil.
        * destruct pin as [base|]; auto. split.
          -- exact (tryHosts_pin_in _ _ _ _ _ _ _ _ Hrun).
          -- apply tryHosts_inv in Hrun.
             destruct Hrun as [(_ & _ & _ & Hp & _)
                              |(_ & b & _ & _ & _ & _ & Hj & _ & _)];
               [discriminate|].
             apply judgeRecords_inl in Hj. destruct Hj as (text & _ & ->).
             simpl. lia.
      + eexists; exists None, [], [URIError_message]. split; auto.
        intros s2 _. rewrite recordsRoute_run, Hvalid.
        rewrite (fetchViaAvailableBase_throws net _ _ _ s2 Hkey).
        unfold served, internalServerError, bind, consoleError, ret, grown.
        now rewrite app_nil_r. }
  destruct ((reqUrl req =? "/api/contact/list")%string
            && (reqMethod req =? "POST")%string).
  { destruct (negb (truthy (getProp (requestFields req) "apiKey"))
              || negb (truthy (getProp (requestFields req) "groupListName"))
              || negb (isArray (getProp (requestFields req) "userProfileIds")))
      eqn:Hvalid.
    - eexists; exists None, [], []. split; auto. intros s2 _.
      rewrite contactListRoute_run, Hvalid. now rewrite grown_same.
    - destruct (tryHosts net
                  (contactListRequest (getProp (requestFields req) "apiKey")
                     (contactListPayload req))
                  judgeContactList (getBasesToTry s) [])
        as [[up pin] reqs] eqn:Hrun.
      exists (respond (status up) jsonContentType (orEmptyJson (body up))),
        pin, reqs, []. split.
      + intros s2 Hord. rewrite contactListRoute_run, Hvalid.
        rewrite postViaAvailableBase_run.
        rewrite Hord, Hrun. simpl. now rewrite grown_nil.
      + destruct pin as [base|]; auto. split.
        * exact (tryHosts_pin_in _ _ _ _ _ _ _ _ Hrun).
        * apply tryHosts_inv in Hrun.
          destruct Hrun as [(_ & _ & _ & Hp & _)
                           |(_ & b & _ & _ & _ & _ & Hj & _ & _)];
            [discriminate|].
          apply judgeContactList_inl in Hj.
          destruct Hj as (code & text & _ & Hcode & ->). simpl. lia. }
  unfold staticRoute.
  destruct (reqMethod req =? "GET")%string;
    [|eexists; exists None, [], []; apply Hconst].
  destruct (fs_stat (resolvePath (reqUrl req))) as [|[|]];
    try (eexists; exists None, [], []; apply Hconst).
  destruct (fs_readFile (resolvePath (reqUrl req)));
    eexists; exists None, [], []; apply Hconst.
Qed.

(** Every reachable state has a valid pin. *)
Lemma reachable_pinnedValid {platform : Platform} (s : state) :
  reachable s -> pinnedValid s.
Proof.
  induction 1 as [|net req s Hr IH].
  - exact I.
  - destruct (handler_effect net req s) as (resp & pin & reqs & logs & Hrun & Hpin).
    rewrite (Hrun s eq_refl). unfold pinnedValid, grown. simpl.
    destruct pin as [base|]; [|exact IH].
    now apply (getBasesToTry_In s base IH).
Qed.

(** C9. The pinned host is unset at startup.  A relay call writes it only
    when it returns the success of a host, which it then pins; a call that
    ends in 502 leaves it as it was.  Serving a request changes it only
    under a 2xx response, so neither a 400 nor a 502 touches it, and never
    unsets it.  It is read only to compute the ordering: in two states with
    the same ordering a request gets the same response. *)
Theorem pinned_lifecycle {platform : Platform} :
  pinnedBaseUrl initialState = None
  /\ (forall c s,
        pinnedBaseUrl (snd (runCall c s)) = pinnedBaseUrl s
        \/ exists base resp,
             In base (getBasesToTry s)
             /\ succeedsOn base c
             /\ fst (runCall c s) = Ok resp
             /\ 200 <= status resp <= 299
             /\ pinnedBaseUrl (snd (runCall c s)) = Some base)
  /\ (forall c s resp,
        fst (runCall c s) = Ok resp -> status resp = 502 ->
        pinnedBaseUrl (snd (runCall c s)) = pinnedBaseUrl s)
  /\ (forall net req s,
        exists resp,
          fst (handler net req s) = Ok resp
          /\ (pinnedBaseUrl (snd (handler net req s)) = pinnedBaseUrl s
              \/ 200 <= resStatus resp <= 299))
  /\ (forall net req s resp,
        fst (handler net req s) = Ok resp ->
        resStatus resp = 400 \/ resStatus resp = 502 ->
        pinnedBaseUrl (snd (handler net req s)) = pinnedBaseUrl s)
  /\ (forall net req s pinned,
        pinnedBaseUrl s = Some pinned ->
        exists pinned', pinnedBaseUrl (snd (handler net req s)) = Some pinned')
  /\ (forall net req s1 s2,
        getBasesToTry s1 = getBasesToTry s2 ->
        fst (handler net req s1) = fst (handler net req s2)).
Proof.
  split; [reflexivity|]. split; [exact runCall_pin|]. split; [|split; [|split; [|split]]].
  - intros c s resp Hr H502.
    destruct (runCall_pin c s) as [Hsame|(base & resp' & _ & _ & Hr' & Hst & _)];
      auto.
    rewrite Hr in Hr'. inversion Hr'; subst. lia.
  - intros net req s.
    destruct (handler_effect net req s) as (resp & pin & reqs & logs & Hrun & Hpin).
    exists resp. rewrite (Hrun s eq_refl). split; auto.
    destruct pin as [base|]; [right; tauto|now left].
  - intros net req s resp Hr Hst.
    destruct (handler_effect net req s) as (resp' & pin & reqs & logs & Hrun & Hpin).
    rewrite (Hrun s eq_refl) in *. simpl in Hr. inversion Hr; subst.
    destruct pin as [base|]; [lia|reflexivity].
  - intros net req s pinned Hp.
    destruct (handler_effect net req s) as (resp & pin & reqs & logs & Hrun & _).
    rewrite (Hrun s eq_refl). simpl.
    destruct pin as [base|]; eauto.
  - intros net req s1 s2 Hord.
    destruct (handler_effect net req s2) as (resp & pin & reqs & logs & Hrun & _).
    now rewrite (Hrun s1 Hord), (Hrun s2 eq_refl).
Qed.

Lemma pinned_lifecycle_witness :
  let net := Sample.answers [] in
  let s := mkState (Some (Sample.host 1)) [] [] in
  fst (@handler Sample.platform net Sample.recordsRequestIn s)
  = Ok (respond 502 jsonContentType
          (Sample.stringify
             (failureMessage
                (map (fun base => attemptError base "getaddrinfo ENOTFOUND")
                   (getBasesToTry s)))))
  /\ pinnedBaseUrl (snd (@handler Sample.platform net Sample.recordsRequestIn s))
     = Some (Sample.host 1).
Proof.
  intros net s.
  assert (H : fst (@handler Sample.platform net Sample.recordsRequestIn s)
              = Ok (respond 502 jsonContentType
                      (Sample.stringify
                         (failureMessage
                            (map (fun base =>
                                    attemptError base "getaddrinfo ENOTFOUND")
                               (getBasesToTry s)))))) by reflexivity.
  split; [exact H|].
  exact (proj1 (proj2 (proj2 (proj2 (proj2 (@pinned_lifecycle Sample.platform)))))
           net Sample.recordsRequestIn s _ H (or_intror eq_refl)).
Defined.

(* ================================================================== *)
(** ** Trailing slashes and query strings *)

(** The string of [n] slashes. *)
Fixpoint slashes (n : nat) : string :=
  match n with
  | O => EmptyString
  | S n' => String "/"%char (slashes n')
  end.

(** The last character of a string. *)
Fixpoint lastChar (s : string) : option ascii :=
  match s with
  | EmptyString => None
  | String c EmptyString => Some c
  | String _ rest => lastChar rest
  end.

(** Whether a string holds the character. *)
Fixpoint holds (c : ascii) (s : string) : bool :=
  match s with
  | EmptyString => false
  | String d rest => Ascii.eqb d c || holds c rest
  end.

Lemma lastChar_cons (c : ascii) (s : string) :
  lastChar (String c s) = match s with EmptyString => Some c | _ => lastChar s end.
Proof. destruct s; reflexivity. Qed.

Lemma stripTrailingSlashes_fixed (s : string) :
  lastChar s <> Some "/"%char -> stripTrailingSlashes s = s.
Proof.
  induction s as [|c rest IH]; intros H; [reflexivity|].
  cbn [stripTrailingSlashes]. rewrite lastChar_cons in H.
  destruct rest as [|d rest'].
  - simpl. destruct (Ascii.eqb_spec c "/"%char) as [->|Hne]; [|reflexivity].
    now contradiction H.
  - rewrite (IH H). cbn [String.eqb]. now rewrite andb_false_r.
Qed.

Lemma stripTrailingSlashes_split (s : string) :
  (exists n, s = (stripTrailingSlashes s ++ slashes n)%string)
  /\ lastChar (stripTrailingSlashes s) <> Some "/"%char.
Proof.
  induction s as [|c rest [(n & Hn) Hlast]].
  - split; [now exists O|discriminate].
  - cbn [stripTrailingSlashes].
    destruct (Ascii.eqb_spec c "/"%char) as [->|Hne]; cbn [andb].
    + destruct (stripTrailingSlashes rest) as [|d r] eqn:Hr.
      * simpl. split; [|discriminate]. exists (S n). simpl in Hn.
        now rewrite Hn at 1.
      * cbn [String.eqb]. split.
        -- exists n. cbn [append]. now rewrite Hn at 1.
        -- rewrite lastChar_cons. exact Hlast.
    + split.
      * exists n. cbn [append]. now rewrite Hn at 1.
      * rewrite lastChar_cons.
        destruct (stripTrailingSlashes rest); [congruence|exact Hlast].
Qed.

(** X1. [base.replace(/\/+$/, "")] takes off the trailing slashes and
    nothing else: the string is the result followed by slashes only, the
    result does not end in a slash, and a string that does not end in a
    slash (as every configured host) is left as it is, so stripping twice
    is stripping once. *)
Theorem stripTrailingSlashes_spec (s : string) :
  (exists n, s = (stripTrailingSlashes s ++ slashes n)%string)
  /\ lastChar (stripTrailingSlashes s) <> Some "/"%char
  /\ (lastChar s <> Some "/"%char -> stripTrailingSlashes s = s)
  /\ stripTrailingSlashes (stripTrailingSlashes s) = stripTrailingSlashes s.
Proof.
  destruct (stripTrailingSlashes_split s) as [Hsplit Hlast].
  repeat split; auto.
  - apply stripTrailingSlashes_fixed.
  - now apply stripTrailingSlashes_fixed.
Qed.

Lemma stripTrailingSlashes_spec_witness :
  lastChar "https://api.sleekflow.io" <> Some "/"%char
  /\ stripTrailingSlashes "https://api.sleekflow.io" = "https://api.sleekflow.io"
  /\ stripTrailingSlashes "https://host//" = "https://host".
Proof.
  assert (H : lastChar "https://api.sleekflow.io" <> Some "/"%char)
    by discriminate.
  split; [exact H|]. split; [|reflexivity].
  exact (proj1 (proj2 (proj2 (stripTrailingSlashes_spec
                                "https://api.sleekflow.io"))) H).
Defined.

Lemma beforeQuery_append (p q : string) :
  beforeQuery (p ++ String "?"%char q) = beforeQuery p.
Proof.
  induction p as [|c p IH]; simpl.
  - reflexivity.
  - destruct (Ascii.eqb c "?"%char); [reflexivity|now rewrite IH].
Qed.

Lemma beforeQuery_no_query (p : string) :
  holds "?"%char p = false -> beforeQuery p = p.
Proof.
  induction p as [|c p IH]; simpl; [reflexivity|].
  destruct (Ascii.eqb c "?"%char); [discriminate|].
  intros H. now rewrite (IH H).
Qed.

Lemma beforeQuery_clean (p : string) : holds "?"%char (beforeQuery p) = false.
Proof.
  induction p as [|c p IH]; simpl; [reflexivity|].
  destruct (Ascii.eqb c "?"%char) eqn:E; [reflexivity|].
  simpl. now rewrite E.
Qed.

(** X2. What follows the first question mark of a url never reaches the
    file system: [resolvePath] gives the same path with and without it, the
    path it joins holds no question mark, and a GET is answered the same
    with and without a query string. *)
Theorem query_string_ignored {platform : Platform} (net : network)
    (p q : string) (chunks : list string) (s : state) :
  resolvePath (p ++ String "?"%char q) = resolvePath p
  /\ holds "?"%char (beforeQuery p) = false
  /\ handler net (mkRequest "GET" (p ++ String "?"%char q) chunks) s
     = handler net (mkRequest "GET" p chunks) s.
Proof.
  assert (H : resolvePath (p ++ String "?"%char q) = resolvePath p).
  { unfold resolvePath. now rewrite beforeQuery_append. }
  split; [exact H|]. split; [apply beforeQuery_clean|].
  unfold handler. cbn [reqMethod reqUrl]. cbn [String.eqb Ascii.eqb Bool.eqb].
  rewrite !andb_false_r. unfold staticRoute. cbn [reqMethod reqUrl].
  now rewrite H.
Qed.

(* ================================================================== *)
(** ** The handler, branch by branch *)

(** The request is a POST to one of the two API paths. *)
Definition isRelayRequest (req : request) : bool :=
  (reqMethod req =? "POST")%string
  && ((reqUrl req =? "/api/records")%string
      || (reqUrl req =? "/api/contact/list")%string).

Section Branches.

Context {platform : Platform}.

(** The check a route makes on the fields before it calls upstream. *)
Definition fieldsValid (req : request) : bool :=
  if (reqUrl req =? "/api/records")%string then
    truthy (getProp (requestFields req) "apiKey")
    && truthy (getProp (requestFields req) "objectKey")
  else
    truthy (getProp (requestFields req) "apiKey")
    && truthy (getProp (requestFields req) "groupListName")
    && isArray (getProp (requestFields req) "userProfileIds").

(** The message of the 400 response of a route. *)
Definition requiredMessage (req : request) : string :=
  if (reqUrl req =? "/api/records")%string
  then "apiKey and objectKey are required"
  else "apiKey, groupListName, and userProfileIds are required".

(** The relay call a route makes for a request whose fields are valid. *)
Definition callOf (net : network) (req : request) : relayCall :=
  if (reqUrl req =? "/api/records")%string then
    RecordFetch net (getProp (requestFields req) "apiKey")
      (getProp (requestFields req) "objectKey") (continuationTokenOf req)
  else
    ContactList net (getProp (requestFields req) "apiKey")
      (contactListPayload req).

(** The requests a relay call sends to the hosts [bases], in order; none
    when the object key of a record fetch cannot be encoded. *)
Definition requestsOf (c : relayCall) (bases : list string) : list outReq :=
  match c with
  | RecordFetch _ apiKey objectKey continuationToken =>
      match encodeURIComponent objectKey with
      | Some key => map (recordsRequest apiKey continuationToken key) bases
      | None => []
      end
  | ContactList _ apiKey payload =>
      map (contactListRequest apiKey payload) bases
  end.

(** The upstream hosts of a call. *)
Definition netOf (c : relayCall) : network :=
  match c with
  | RecordFetch net _ _ _ => net
  | ContactList net _ _ => net
  end.

(** The attempt of a call at [base] fails. *)
Definition attemptFails (c : relayCall) (base : string) : Prop :=
  match c with
  | RecordFetch net apiKey objectKey continuationToken =>
      exists key,
        encodeURIComponent objectKey = Some key
        /\ recordsAttemptFails
             (net (recordsRequest apiKey continuationToken key base))
  | ContactList net apiKey payload =>
      contactListAttemptFails (net (contactListRequest apiKey payload base))
  end.

End Branches.

Lemma negb_and_or (a b : bool) : negb a || negb b = negb (a && b).
Proof. now destruct a, b. Qed.

(** A POST to an API path: 400 on invalid fields, else what the route makes
    of its relay call. *)
Lemma handler_relay {platform : Platform} (net : network) (req : request)
    (s : state) :
  isRelayRequest req = true ->
  handler net req s
  = if fieldsValid req then served (runCall (callOf net req) s)
    else (Ok (respond 400 jsonContentType
                (JSON_stringify (errorObject (requiredMessage req)))), s).
Proof.
  unfold isRelayRequest. intros H. apply andb_true_iff in H.
  destruct H as [Hm Hu]. apply String.eqb_eq in Hm.
  unfold fieldsValid, requiredMessage, callOf.
  destruct (reqUrl req =? "/api/records")%string eqn:Er.
  - apply String.eqb_eq in Er.
    rewrite (handler_records net req s Er Hm), recordsRoute_run.
    rewrite negb_and_or.
    now destruct (truthy (getProp (requestFields req) "apiKey")
                  && truthy (getProp (requestFields req) "objectKey")).
  - simpl in Hu. apply String.eqb_eq in Hu.
    rewrite (handler_contactList net req s Hu Hm), contactListRoute_run.
    rewrite !negb_and_or.
    now destruct (truthy (getProp (requestFields req) "apiKey")
                  && truthy (getProp (requestFields req) "groupListName")
                  && isArray (getProp (requestFields req) "userProfileIds")).
Qed.

(** Any other request: the state is left alone, and the answer is the
    preflight 204, a file with 200, or the 404. *)
Lemma handler_other {platform : Platform} (net : network) (req : request)
    (s : state) :
  isRelayRequest req = false ->
  exists st hs b,
    handler net req s = (Ok (respond st hs b), s)
    /\ (st = 204 \/ st = 200 \/ st = 404).
Proof.
  unfold isRelayRequest, handler. intros H.
  destruct (reqMethod req =? "OPTIONS")%string.
  { do 3 eexists. split; [reflexivity|auto]. }
  destruct (reqMethod req =? "POST")%string;
    destruct (reqUrl req =? "/api/records")%string;
    destruct (reqUrl req =? "/api/contact/list")%string;
    try discriminate H; cbn [andb];
    unfold staticRoute, notFound;
    (destruct (reqMethod req =? "GET")%string;
     [destruct (fs_stat (resolvePath (reqUrl req))) as [|[|]];
      [|destruct (fs_readFile (resolvePath (reqUrl req)))|]|]);
    do 3 eexists; (split; [reflexivity|auto]).
Qed.

Lemma judgeRecords_inr (base : string) (o : netOutcome) (attempt : json) :
  judgeRecords base o = inr attempt -> recordsAttemptFails o.
Proof.
  destruct o as [code text|message]; simpl; [|auto].
  unfold orStatus500. intros H ->. discriminate H.
Qed.

Lemma judgeContactList_inr (base : string) (o : netOutcome) (attempt : json) :
  judgeContactList base o = inr attempt -> contactListAttemptFails o.
Proof.
  destruct o as [code text|message]; simpl; [|auto].
  unfold ok. simpl. destruct (200 <=? code) eqn:E1;
    destruct (code <=? 299) eqn:E2; simpl; try discriminate; intros _;
    rewrite ?Z.leb_gt in *; lia.
Qed.

Lemma firstn_app_exact {A : Type} (l : list A) (x : A) (l' : list A) :
  firstn (S (length l)) (l ++ x :: l') = l ++ [x].
Proof.
  induction l as [|y l IH]; [reflexivity|].
  change (y :: firstn (S (length l)) (l ++ x :: l') = y :: (l ++ [x])).
  now rewrite IH.
Qed.

Lemma nth_error_app_exact {A : Type} (l : list A) (x : A) (l' : list A) :
  nth_error (l ++ x :: l') (length l) = Some x.
Proof. induction l as [|y l IH]; simpl; auto. Qed.

(** The requests of a run of [tryHosts] go to the first [k] hosts, one
    each and in order: all of them when nothing is pinned, up to the pinned
    host otherwise. *)
Lemma tryHosts_prefix {platform : Platform} (net : network)
    (request : string -> outReq)
    (judge : string -> netOutcome -> upstreamResponse + json)
    (bases : list string) (errors : list json) resp pin reqs :
  tryHosts net request judge bases errors = (resp, pin, reqs) ->
  exists k,
    (k <= length bases)%nat
    /\ reqs = map request (firstn k bases)
    /\ match pin with
       | None =>
           k = length bases /\ status resp = 502
           /\ forall base, In base bases ->
                exists attempt, judge base (net (request base)) = inr attempt
       | Some base =>
           exists j, k = S j /\ nth_error bases j = Some base
                     /\ judge base (net (request base)) = inl resp
       end.
Proof.
  intros H. apply tryHosts_inv in H.
  destruct H as [(attempts & Hkept & -> & -> & ->)
                |(pre & base & post & attempts & -> & Hkept & Hj & -> & ->)].
  - exists (length bases). rewrite firstn_all. repeat split; auto.
    clear - Hkept. induction Hkept as [|b a l l' Hk Hrest IH]; intros base Hin.
    + destruct Hin.
    + destruct Hin as [<-|Hin]; [now exists a|now apply IH].
  - exists (S (length pre)). rewrite firstn_app_exact. split; [|split; auto].
    + rewrite length_app. simpl. lia.
    + exists (length pre). repeat split; auto. apply nth_error_app_exact.
Qed.

(** During the call, [base] answers its request with the success [resp]. *)
Definition answeredBy {platform : Platform} (c : relayCall) (base : string)
    (resp : upstreamResponse) : Prop :=
  match c with
  | RecordFetch net apiKey objectKey continuationToken =>
      exists key,
        encodeURIComponent objectKey = Some key
        /\ net (recordsRequest apiKey continuationToken key base)
           = Responded 200 (body resp)
        /\ status resp = 200
  | ContactList net apiKey payload =>
      net (contactListRequest apiKey payload base)
      = Responded (status resp) (body resp)
      /\ 200 <= status resp <= 299
  end.

(** A relay call, in full: it throws before any request when the object key
    cannot be encoded; else it sends the requests of the first [k] hosts and
    either all of them failed and it returns 502, or the last of them
    answered with the success it returns and is pinned. *)
Lemma runCall_cases {platform : Platform} (c : relayCall) (s : state) :
  (requestsOf c (getBasesToTry s) = []
   /\ runCall c s = (Thrown URIError_message, s))
  \/ exists resp pin k,
       runCall c s
       = (Ok resp, after pin (requestsOf c (firstn k (getBasesToTry s))) s)
       /\ (k <= length (getBasesToTry s))%nat
       /\ match pin with
          | None =>
              k = length (getBasesToTry s) /\ status resp = 502
              /\ forall base, In base (getBasesToTry s) -> attemptFails c base
          | Some base =>
              exists j, k = S j /\ nth_error (getBasesToTry s) j = Some base
                        /\ answeredBy c base resp
          end.
Proof.
  destruct c as [net apiKey objectKey ct|net apiKey payload]; simpl.
  - destruct (encodeURIComponent objectKey) as [key|] eqn:Hkey.
    + right.
      rewrite (fetchViaAvailableBase_run net apiKey objectKey ct key s Hkey).
      destruct (tryHosts net (recordsRequest apiKey ct key) judgeRecords
                  (getBasesToTry s) []) as [[resp pin] reqs] eqn:Hrun.
      destruct (tryHosts_prefix _ _ _ _ _ _ _ _ Hrun) as (k & Hk & -> & Hpin).
      exists resp, pin, k. split; [reflexivity|]. split; [exact Hk|].
      destruct pin as [base|].
      * destruct Hpin as (j & -> & Hnth & Hj). exists j. repeat split; auto.
        apply judgeRecords_inl in Hj. destruct Hj as (text & Ho & ->).
        exists key. auto.
      * destruct Hpin as (-> & H502 & Hall). repeat split; auto.
        intros base Hin. destruct (Hall base Hin) as (attempt & Hj).
        exists key. split; auto. now apply judgeRecords_inr in Hj.
    + left. split; [reflexivity|].
      now apply fetchViaAvailableBase_throws.
  - right. rewrite postViaAvailableBase_run.
    destruct (tryHosts net (contactListRequest apiKey payload) judgeContactList
                (getBasesToTry s) []) as [[resp pin] reqs] eqn:Hrun.
    destruct (tryHosts_prefix _ _ _ _ _ _ _ _ Hrun) as (k & Hk & -> & Hpin).
    exists resp, pin, k. split; [reflexivity|]. split; [exact Hk|].
    destruct pin as [base|].
    + destruct Hpin as (j & -> & Hnth & Hj). exists j. repeat split; auto;
        apply judgeContactList_inl in Hj;
        destruct Hj as (code & text & Ho & Hcode & ->); simpl; auto; lia.
    + destruct Hpin as (-> & H502 & Hall). repeat split; auto.
      intros base Hin. destruct (Hall base Hin) as (attempt & Hj).
      now apply judgeContactList_inr in Hj.
Qed.

Lemma requestsOf_length {platform : Platform} (c : relayCall)
    (bases : list string) :
  (length (requestsOf c bases) <= length bases)%nat.
Proof.
  destruct c as [net apiKey objectKey ct|net apiKey payload]; simpl.
  - destruct (encodeURIComponent objectKey); simpl;
      [rewrite length_map|]; lia.
  - rewrite length_map. lia.
Qed.

(* ================================================================== *)
(** ** Every request is answered *)

(** X3. No exception escapes the handler: whatever the platform, the
    upstream hosts, the request and the state, the handler returns a
    response, and the response starts with the three CORS headers. *)
Theorem handler_always_answers {platform : Platform} (net : network)
    (req : request) (s : state) :
  exists resp s',
    handler net req s = (Ok resp, s')
    /\ firstn 3 (resHeaders resp) = corsHeaders.
Proof.
  assert (Hcors : forall st hs b,
             firstn 3 (resHeaders (respond st hs b)) = corsHeaders)
    by reflexivity.
  destruct (isRelayRequest req) eqn:Hrelay.
  - rewrite (handler_relay net req s Hrelay).
    destruct (fieldsValid req); [|eauto].
    destruct (runCall (callOf net req) s) as [[up|err] s']; simpl;
      unfold internalServerError, bind, consoleError, ret; eauto.
  - destruct (handler_other net req s Hrelay) as (st & hs & b & -> & _). eauto.
Qed.

(* ================================================================== *)
(** ** One attempt per host *)

(** X4. A relay call sends its requests to the first hosts of the
    ordering, one request per host and in the order of the ordering, and
    logs nothing; when it returns 502 every host of the ordering got its
    request. *)
Theorem relay_requests_follow_ordering {platform : Platform} (c : relayCall)
    (s : state) :
  exists k,
    (k <= length (getBasesToTry s))%nat
    /\ outbound (snd (runCall c s))
       = outbound s ++ requestsOf c (firstn k (getBasesToTry s))
    /\ console (snd (runCall c s)) = console s
    /\ (forall resp, fst (runCall c s) = Ok resp -> status resp = 502 ->
          k = length (getBasesToTry s)).
Proof.
  destruct (runCall_cases c s)
    as [[Hnone ->]|(resp & pin & k & -> & Hk & Hpin)].
  - exists O. simpl. repeat split; try lia.
    + destruct c; simpl in *; [|now rewrite app_nil_r].
      destruct (encodeURIComponent objectKey); now rewrite app_nil_r.
    + discriminate.
  - exists k. simpl. repeat split; auto.
    intros resp' Hr H502. inversion Hr; subst resp'.
    destruct pin as [base|]; [|tauto].
    destruct Hpin as (j & _ & _ & Hans).
    destruct c; simpl in Hans.
    + destruct Hans as (key & _ & _ & H200). lia.
    + lia.
Qed.

Lemma relay_requests_follow_ordering_witness :
  let net := Sample.answers [ (Sample.host 0, Responded 503 "busy");
                              (Sample.host 1, Failed "ECONNRESET");
                              (Sample.host 2, Responded 200 "{}") ] in
  let c := @RecordFetch net (Some (JStr "k-1")) (Some (JStr "orders"))
             (Some (JStr "")) in
  outbound (snd (@runCall Sample.platform c initialState))
  = @requestsOf Sample.platform c
      [Sample.host 0; Sample.host 1; Sample.host 2]
  /\ exists k,
       (k <= length (getBasesToTry initialState))%nat
       /\ outbound (snd (@runCall Sample.platform c initialState))
          = outbound initialState
            ++ @requestsOf Sample.platform c
                 (firstn k (getBasesToTry initialState))
       /\ console (snd (@runCall Sample.platform c initialState))
          = console initialState
       /\ (forall resp,
             fst (@runCall Sample.platform c initialState) = Ok resp ->
             status resp = 502 -> k = length (getBasesToTry initialState)).
Proof.
  intros net c. split; [reflexivity|].
  exact (@relay_requests_follow_ordering Sample.platform c initialState).
Defined.

(** X5. Serving one request sends at most one upstream request per
    configured host, five at most, and logs at most one line; what was sent
    and logged before stays. *)
Theorem handler_upstream_calls_bounded {platform : Platform} (net : network)
    (req : request) (s : state) :
  pinnedValid s ->
  exists reqs logs,
    outbound (snd (handler net req s)) = outbound s ++ reqs
    /\ (length reqs <= length BASE_URLS)%nat
    /\ console (snd (handler net req s)) = console s ++ logs
    /\ (length logs <= 1)%nat.
Proof.
  intros Hvalid.
  assert (Hsame : exists reqs logs,
             outbound s = outbound s ++ reqs
             /\ (length reqs <= length BASE_URLS)%nat
             /\ console s = console s ++ logs /\ (length logs <= 1)%nat).
  { exists [], []. rewrite !app_nil_r. simpl. repeat split; lia. }
  destruct (isRelayRequest req) eqn:Hrelay.
  - rewrite (handler_relay net req s Hrelay).
    destruct (fieldsValid req); [|exact Hsame].
    destruct (runCall_cases (callOf net req) s)
      as [[_ ->]|(resp & pin & k & -> & Hk & _)].
    + exists [], [URIError_message]. simpl. rewrite app_nil_r.
      repeat split; lia.
    + exists (requestsOf (callOf net req) (firstn k (getBasesToTry s))), [].
      split; [reflexivity|]. split; [|split].
      * pose proof (requestsOf_length (callOf net req)
                      (firstn k (getBasesToTry s))) as Hr.
        rewrite length_firstn in Hr.
        rewrite <- (getBasesToTry_length s Hvalid). lia.
      * simpl. now rewrite app_nil_r.
      * simpl. lia.
  - destruct (handler_other net req s Hrelay) as (st & hs & b & -> & _).
    exact Hsame.
Qed.

Lemma handler_upstream_calls_bounded_witness :
  pinnedValid initialState
  /\ exists reqs logs,
       outbound (snd (@handler Sample.platform (Sample.answers [])
                        Sample.recordsRequestIn initialState))
       = outbound initialState ++ reqs
       /\ (length reqs <= length BASE_URLS)%nat
       /\ console (snd (@handler Sample.platform (Sample.answers [])
                          Sample.recordsRequestIn initialState))
          = console initialState ++ logs
       /\ (length logs <= 1)%nat.
Proof.
  split; [exact I|].
  exact (@handler_upstream_calls_bounded Sample.platform (Sample.answers [])
           Sample.recordsRequestIn initialState I).
Defined.

(* ================================================================== *)
(** ** What touches the state, and what is not found *)

(** X6. Only a POST to an API path with valid fields can change the state:
    any other request (a preflight, a GET, another method or path, a POST
    whose fields fail the check) leaves the pin, the requests sent and the
    log exactly as they were. *)
Theorem only_valid_relay_requests_touch_state {platform : Platform}
    (net : network) (req : request) (s : state) :
  isRelayRequest req && fieldsValid req = false ->
  snd (handler net req s) = s.
Proof.
  intros H. destruct (isRelayRequest req) eqn:Hrelay.
  - simpl in H. rewrite (handler_relay net req s Hrelay), H. reflexivity.
  - destruct (handler_other net req s Hrelay) as (st & hs & b & -> & _).
    reflexivity.
Qed.

Lemma only_valid_relay_requests_touch_state_witness :
  let req := mkRequest "GET" "/api/records" [Sample.recordsText] in
  let s := mkState (Some (Sample.host 4)) [] ["earlier"] in
  isRelayRequest req && @fieldsValid Sample.platform req = false
  /\ snd (@handler Sample.platform
            (Sample.answers [(Sample.host 0, Responded 200 "{}")]) req s) = s.
Proof.
  intros req s.
  assert (H : isRelayRequest req && @fieldsValid Sample.platform req = false)
    by reflexivity.
  split; [exact H|].
  exact (@only_valid_relay_requests_touch_state Sample.platform _ req s H).
Defined.

(** X7. A request that is no preflight, no POST to one of the two API
    paths, and no GET of a file that exists and can be read is answered 404
    with the JSON error [Not found].  So is a POST to an API path followed
    by a query string or a slash, and any PUT or DELETE. *)
Theorem unknown_requests_not_found {platform : Platform} (net : network)
    (req : request) (s : state) :
  reqMethod req <> "OPTIONS" ->
  isRelayRequest req = false ->
  reqMethod req <> "GET"
  \/ fs_stat (resolvePath (reqUrl req)) <> StatOk true
  \/ fs_readFile (resolvePath (reqUrl req)) = None ->
  handler net req s
  = (Ok (respond 404 jsonContentType
           (JSON_stringify (JObj [("error", JStr "Not found")]))), s).
Proof.
  intros Hopt Hrelay Hmiss. unfold isRelayRequest in Hrelay. unfold handler.
  rewrite (proj2 (String.eqb_neq _ _) Hopt).
  assert (Hstatic : staticRoute req s = (Ok notFound, s)).
  { unfold staticRoute.
    destruct (String.eqb_spec (reqMethod req) "GET") as [Hget|_];
      [|reflexivity].
    destruct Hmiss as [Hm|[Hst|Hrd]]; [contradiction| |].
    - destruct (fs_stat (resolvePath (reqUrl req))) as [|[|]];
        try reflexivity. now contradiction Hst.
    - destruct (fs_stat (resolvePath (reqUrl req))) as [|[|]];
        try reflexivity. now rewrite Hrd. }
  destruct (reqMethod req =? "POST")%string;
    destruct (reqUrl req =? "/api/records")%string;
    destruct (reqUrl req =? "/api/contact/list")%string;
    try discriminate Hrelay; exact Hstatic.
Qed.

Lemma unknown_requests_not_found_witness :
  let req := mkRequest "POST" "/api/records?limit=5" [Sample.recordsText] in
  reqMethod req <> "OPTIONS"
  /\ isRelayRequest req = false
  /\ reqMethod req <> "GET"
  /\ @handler Sample.platform (Sample.answers []) req initialState
     = (Ok (respond 404 jsonContentType
              (Sample.stringify (JObj [("error", JStr "Not found")]))),
        initialState).
Proof.
  intros req.
  assert (H1 : reqMethod req <> "OPTIONS") by discriminate.
  assert (H2 : isRelayRequest req = false) by reflexivity.
  assert (H3 : reqMethod req <> "GET") by discriminate.
  split; [exact H1|]. split; [exact H2|]. split; [exact H3|].
  exact (@unknown_requests_not_found Sample.platform (Sample.answers []) req
           initialState H1 H2 (or_introl H3)).
Defined.

(* ================================================================== *)
(** ** Statuses *)

Lemma nth_error_firstn_last {A : Type} (l : list A) (j : nat) (x : A) :
  nth_error l j = Some x -> firstn (S j) l = firstn j l ++ [x].
Proof.
  revert j. induction l as [|y l IH]; intros [|j] H; try discriminate.
  - simpl in H. inversion H. reflexivity.
  - simpl in H. change (y :: firstn (S j) l = y :: (firstn j l ++ [x])).
    now rewrite (IH j H).
Qed.

Lemma requestsOf_app {platform : Platform} (c : relayCall)
    (l l' : list string) :
  requestsOf c (l ++ l') = requestsOf c l ++ requestsOf c l'.
Proof.
  destruct c as [net apiKey objectKey ct|net apiKey payload]; simpl.
  - destruct (encodeURIComponent objectKey); [apply map_app|reflexivity].
  - apply map_app.
Qed.

(** X8. The proxies keep transport errors and upstream rejections to
    themselves.  [postViaAvailableBase] never throws, and returns 502 or the
    2xx of a host.  [fetchViaAvailableBase] throws only when
    [encodeURIComponent] throws on the object key, before any request is
    sent, and otherwise returns 502 or 200. *)
Theorem proxies_absorb_failures {platform : Platform} (net : network)
    (apiKey objectKey ct : jsval) (payload : json) (s : state) :
  (exists resp,
      fst (postViaAvailableBase net apiKey payload s) = Ok resp
      /\ (status resp = 502 \/ 200 <= status resp <= 299))
  /\ match encodeURIComponent objectKey with
     | None =>
         fetchViaAvailableBase net apiKey objectKey ct s
         = (Thrown URIError_message, s)
     | Some _ =>
         exists resp,
           fst (fetchViaAvailableBase net apiKey objectKey ct s) = Ok resp
           /\ (status resp = 502 \/ status resp = 200)
     end.
Proof.
  split.
  - destruct (runCall_cases (ContactList net apiKey payload) s)
      as [[_ H]|(resp & pin & k & H & _ & Hpin)]; simpl in H.
    + rewrite postViaAvailableBase_run in H.
      destruct (tryHosts net _ judgeContactList (getBasesToTry s) [])
        as [[? ?] ?]. discriminate H.
    + rewrite H. exists resp. split; [reflexivity|].
      destruct pin as [base|]; [right|left; tauto].
      destruct Hpin as (j & _ & _ & Hans). simpl in Hans. tauto.
  - destruct (encodeURIComponent objectKey) as [key|] eqn:Hkey.
    + destruct (runCall_cases (RecordFetch net apiKey objectKey ct) s)
        as [[_ H]|(resp & pin & k & H & _ & Hpin)]; simpl in H.
      * rewrite (fetchViaAvailableBase_run net _ _ _ key s Hkey) in H.
        destruct (tryHosts net _ judgeRecords (getBasesToTry s) [])
          as [[? ?] ?]. discriminate H.
      * rewrite H. exists resp. split; [reflexivity|].
        destruct pin as [base|]; [right|left; tauto].
        destruct Hpin as (j & _ & _ & Hans). simpl in Hans.
        destruct Hans as (key' & _ & _ & H200). exact H200.
    + now apply fetchViaAvailableBase_throws.
Qed.




(** X10. A success a proxy returns is the answer of the last host it sent a
    request to: a result other than 502 carries the status and body with
    which that host answered, the host is one of the ordering, and it is
    the pinned host after the call. *)
Theorem success_is_last_host_answer {platform : Platform} (c : relayCall)
    (s : state) (resp : upstreamResponse) :
  fst (runCall c s) = Ok resp ->
  status resp <> 502 ->
  exists base earlier r,
    In base (getBasesToTry s)
    /\ outbound (snd (runCall c s)) = outbound s ++ earlier ++ [r]
    /\ requestsOf c [base] = [r]
    /\ netOf c r = Responded (status resp) (body resp)
    /\ pinnedBaseUrl (snd (runCall c s)) = Some base.
Proof.
  intros Hr Hne.
  destruct (runCall_cases c s)
    as [[_ H]|(resp' & pin & k & H & _ & Hpin)]; rewrite H in *.
  - discriminate Hr.
  - simpl in Hr. inversion Hr; subst resp'.
    destruct pin as [base|]; [|tauto].
    destruct Hpin as (j & -> & Hnth & Hans).
    rewrite (nth_error_firstn_last _ _ _ Hnth), requestsOf_app.
    destruct c as [net apiKey objectKey ct|net apiKey payload]; simpl in *.
    + destruct Hans as (key & Hkey & Ho & H200). rewrite Hkey.
      exists base. eexists. eexists. repeat split; eauto.
      * exact (nth_error_In _ _ Hnth).
      * now rewrite H200.
    + destruct Hans as (Ho & _).
      exists base. eexists. eexists. repeat split; eauto.
      exact (nth_error_In _ _ Hnth).
Qed.

Lemma success_is_last_host_answer_witness :
  let net := Sample.answers [ (Sample.host 0, Failed "ECONNREFUSED");
                              (Sample.host 1, Responded 201 "made") ] in
  let c := @ContactList net (Some (JStr "k-1")) Sample.contactValue in
  fst (@runCall Sample.platform c initialState) = Ok (mkUpstream 201 "made")
  /\ exists base earlier r,
       In base (getBasesToTry initialState)
       /\ outbound (snd (@runCall Sample.platform c initialState))
          = outbound initialState ++ earlier ++ [r]
       /\ @requestsOf Sample.platform c [base] = [r]
       /\ netOf c r = Responded 201 "made"
       /\ pinnedBaseUrl (snd (@runCall Sample.platform c initialState))
          = Some base.
Proof.
  intros net c.
  assert (H : fst (@runCall Sample.platform c initialState)
              = Ok (mkUpstream 201 "made")) by reflexivity.
  split; [exact H|].
  refine (@success_is_last_host_answer Sample.platform c initialState
            (mkUpstream 201 "made") H _).
  discriminate.
Defined.

(** X11. A proxy that returns does so with 502 exactly when the attempt at
    every host of the ordering failed: one host that answers with a success
    is enough for the call not to end in 502. *)
Theorem exhausted_iff_all_fail {platform : Platform} (c : relayCall)
    (s : state) (resp : upstreamResponse) :
  fst (runCall c s) = Ok resp ->
  (status resp = 502
   <-> forall base, In base (getBasesToTry s) -> attemptFails c base).
Proof.
  intros Hr.
  destruct (runCall_cases c s)
    as [[_ H]|(resp' & pin & k & H & _ & Hpin)]; rewrite H in *.
  - discriminate Hr.
  - simpl in Hr. inversion Hr; subst resp'.
    destruct pin as [base|].
    + destruct Hpin as (j & _ & Hnth & Hans).
      pose proof (nth_error_In _ _ Hnth) as Hin.
      destruct c as [net apiKey objectKey ct|net apiKey payload];
        simpl in Hans |- *.
      * destruct Hans as (key & Hkey & Ho & H200). split; [lia|].
        intros Hall. destruct (Hall base Hin) as (key' & Hkey' & Hf).
        rewrite Hkey in Hkey'. inversion Hkey'; subst key'.
        rewrite Ho in Hf. now contradiction Hf.
      * destruct Hans as (Ho & Hcode). split; [lia|].
        intros Hall. specialize (Hall base Hin). rewrite Ho in Hall.
        simpl in Hall. lia.
    + tauto.
Qed.

Lemma exhausted_iff_all_fail_witness :
  let net := Sample.answers [(Sample.host 4, Responded 200 "[]")] in
  let c := @RecordFetch net (Some (JStr "k-1")) (Some (JStr "orders"))
             (Some (JStr "")) in
  fst (@runCall Sample.platform c initialState) = Ok (mkUpstream 200 "[]")
  /\ (status (mkUpstream 200 "[]") = 502
      <-> forall base, In base (getBasesToTry initialState) ->
            @attemptFails Sample.platform c base).
Proof.
  intros net c.
  assert (H : fst (@runCall Sample.platform c initialState)
              = Ok (mkUpstream 200 "[]")) by reflexivity.
  split; [exact H|].
  exact (@exhausted_iff_all_fail Sample.platform c initialState
           (mkUpstream 200 "[]") H).
Defined.

(* ================================================================== *)
(** ** The ordering in every reachable state *)

Lemma getBasesToTry_NoDup (s : state) : NoDup (getBasesToTry s).
Proof.
  unfold getBasesToTry. destruct (pinnedBaseUrl s) as [pinned|];
    [|apply BASE_URLS_NoDup].
  destruct (pinned =? "")%string; [apply BASE_URLS_NoDup|].
  constructor.
  - intros H. apply filter_others_In in H. now destruct H.
  - apply NoDup_filter, BASE_URLS_NoDup.
Qed.

(** X12. In every state the server can reach, the ordering holds each
    configured host exactly once and no other host: failover never tries a
    host twice in one call and never skips one. *)
Theorem reachable_ordering_covers_hosts {platform : Platform} (s : state) :
  reachable s ->
  NoDup (getBasesToTry s)
  /\ (forall base, In base (getBasesToTry s) <-> In base BASE_URLS)
  /\ length (getBasesToTry s) = length BASE_URLS.
Proof.
  intros Hr. pose proof (reachable_pinnedValid s Hr) as Hvalid.
  split; [apply getBasesToTry_NoDup|]. split.
  - intros base. now apply getBasesToTry_In.
  - now apply getBasesToTry_length.
Qed.

Lemma reachable_ordering_covers_hosts_witness :
  let net := Sample.answers [ (Sample.host 0, Responded 503 "busy");
                              (Sample.host 1, Responded 200 "{}") ] in
  let s := snd (@handler Sample.platform net Sample.recordsRequestIn
                  initialState) in
  @reachable Sample.platform s
  /\ getBasesToTry s
     = [Sample.host 1; Sample.host 0; Sample.host 2; Sample.host 3;
        Sample.host 4]
  /\ NoDup (getBasesToTry s)
  /\ (forall base, In base (getBasesToTry s) <-> In base BASE_URLS)
  /\ length (getBasesToTry s) = length BASE_URLS.
Proof.
  intros net s.
  assert (H : @reachable Sample.platform s).
  { exact (@reachable_served Sample.platform net Sample.recordsRequestIn
             initialState (@reachable_initial Sample.platform)). }
  split; [exact H|]. split; [reflexivity|].
  exact (@reachable_ordering_covers_hosts Sample.platform s H).
Defined.

(* ================================================================== *)
(** ** Bodies without fields *)

(** X13. A POST to an API path whose body is empty, or is JSON for
    anything but an object (an array, a string, a number, a boolean, null),
    has no fields: it is answered 400 with the route's message, the state
    unchanged. *)
Theorem body_without_fields_rejected {platform : Platform} (net : network)
    (req : request) (s : state) :
  isRelayRequest req = true ->
  String.concat "" (reqChunks req) = ""
  \/ (exists value,
         JSON_parse (String.concat "" (reqChunks req)) = Some value
         /\ forall props, value <> JObj props) ->
  handler net req s
  = (Ok (respond 400 jsonContentType
           (JSON_stringify (JObj [("error", JStr (requiredMessage req))]))),
     s).
Proof.
  intros Hrelay Hbody.
  assert (Hnone : forall k, getProp (requestFields req) k = None).
  { intros k. unfold requestFields.
    destruct Hbody as [-> | (value & -> & Hno)]; [reflexivity|].
    destruct (String.concat "" (reqChunks req) =? "")%string; [reflexivity|].
    unfold orEmptyObject. destruct (truthy (Some value)); [|reflexivity].
    destruct value; try reflexivity. now contradiction (Hno props). }
  rewrite (handler_relay net req s Hrelay).
  unfold fieldsValid. rewrite !Hnone. simpl.
  now destruct (reqUrl req =? "/api/records")%string.
Qed.

Lemma body_without_fields_rejected_witness :
  let req := mkRequest "POST" "/api/contact/list" [""; ""] in
  isRelayRequest req = true
  /\ String.concat "" (reqChunks req) = ""
  /\ @handler Sample.platform (Sample.answers []) req initialState
     = (Ok (respond 400 jsonContentType
              (Sample.stringify
                 (JObj [("error",
                         JStr "apiKey, groupListName, and userProfileIds are required")]))),
        initialState).
Proof.
  intros req.
  assert (H1 : isRelayRequest req = true) by reflexivity.
  assert (H2 : String.concat "" (reqChunks req) = "") by reflexivity.
  split; [exact H1|]. split; [exact H2|].
  exact (@body_without_fields_rejected Sample.platform (Sample.answers [])
           req initialState H1 (or_introl H2)).
Defined.

Lemma requestFields_chunks {platform : Platform} (method url : string)
    (chunks chunks' : list string) :
  String.concat "" chunks = String.concat "" chunks' ->
  requestFields (mkRequest method url chunks)
  = requestFields (mkRequest method url chunks').
Proof. intros H. unfold requestFields. cbn [reqChunks]. now rewrite H. Qed.

(** X14. How the body of a request is cut into chunks does not matter: two
    requests with the same method and url whose chunks join to the same
    text are served alike, with the same response and the same state. *)
Theorem chunking_is_irrelevant {platform : Platform} (net : network)
    (method url : string) (chunks chunks' : list string) (s : state) :
  String.concat "" chunks = String.concat "" chunks' ->
  handler net (mkRequest method url chunks) s
  = handler net (mkRequest method url chunks') s.
Proof.
  intros H.
  pose proof (requestFields_chunks method url chunks chunks' H) as Hf.
  unfold handler. cbn [reqMethod reqUrl].
  destruct (method =? "OPTIONS")%string; [reflexivity|].
  destruct ((url =? "/api/records")%string && (method =? "POST")%string).
  { rewrite !recordsRoute_run. unfold continuationTokenOf. now rewrite Hf. }
  destruct ((url =? "/api/contact/list")%string && (method =? "POST")%string).
  { rewrite !contactListRoute_run. unfold contactListPayload. now rewrite Hf. }
  reflexivity.
Qed.

Lemma chunking_is_irrelevant_witness :
  let net := Sample.answers [(Sample.host 0, Responded 200 "[]")] in
  let chunks := [ substring 0 9 Sample.recordsText;
                  substring 9 (String.length Sample.recordsText)
                    Sample.recordsText ] in
  String.concat "" chunks = String.concat "" [Sample.recordsText]
  /\ @handler Sample.platform net (mkRequest "POST" "/api/records" chunks)
       initialState
     = @handler Sample.platform net
         (mkRequest "POST" "/api/records" [Sample.recordsText]) initialState.
Proof.
  intros net chunks.
  assert (H : String.concat "" chunks = String.concat "" [Sample.recordsText])
    by reflexivity.
  split; [exact H|].
  exact (@chunking_is_irrelevant Sample.platform net "POST" "/api/records"
           chunks [Sample.recordsText] initialState H).
Defined.

(* ================================================================== *)
(** ** Static files *)

(** X17. A GET of a path that is a file the server can read is answered
    200 with the bytes of the file, under the content type the table gives
    for the extension of the path and [application/octet-stream] for an
    extension the table does not have; the state is left alone.  The path
    [/], with or without a query string, is the index document. *)
Theorem static_file_served {platform : Platform} (net : network)
    (req : request) (s : state) (data : string) :
  reqMethod req = "GET" ->
  fs_stat (resolvePath (reqUrl req)) = StatOk true ->
  fs_readFile (resolvePath (reqUrl req)) = Some data ->
  (exists contentType,
      handler net req s
      = (Ok (respond 200 [("Content-Type", contentType)] data), s)
      /\ match assoc (path_extname (resolvePath (reqUrl req))) CONTENT_TYPES with
         | Some t => contentType = t
         | None => contentType = "application/octet-stream"
         end)
  /\ (beforeQuery (reqUrl req) = "/" ->
      resolvePath (reqUrl req) = path_join_dirname "/index.html").
Proof.
  intros Hm Hstat Hread. split.
  - unfold handler, staticRoute. rewrite Hm, Hstat, Hread.
    cbn [String.eqb Ascii.eqb Bool.eqb]. rewrite !andb_false_r.
    eexists. split; [reflexivity|].
    now destruct (assoc (path_extname (resolvePath (reqUrl req))) CONTENT_TYPES).
  - intros Hroot. unfold resolvePath. now rewrite Hroot.
Qed.

Lemma static_file_served_witness :
  let req := mkRequest "GET" "/?v=2" [] in
  @fs_stat Sample.platform (@resolvePath Sample.platform (reqUrl req))
  = StatOk true
  /\ @fs_readFile Sample.platform (@resolvePath Sample.platform (reqUrl req))
     = Some "<!doctype html>"
  /\ @handler Sample.platform (Sample.answers []) req initialState
     = (Ok (respond 200 [("Content-Type", "text/html; charset=utf-8")]
              "<!doctype html>"), initialState).
Proof.
  intros req.
  assert (H1 : @fs_stat Sample.platform
                 (@resolvePath Sample.platform (reqUrl req)) = StatOk true)
    by reflexivity.
  assert (H2 : @fs_readFile Sample.platform
                 (@resolvePath Sample.platform (reqUrl req))
               = Some "<!doctype html>") by reflexivity.
  split; [exact H1|]. split; [exact H2|].
  destruct (proj1 (@static_file_served Sample.platform (Sample.answers [])
                     req initialState "<!doctype html>" eq_refl H1 H2))
    as (contentType & Hrun & Htype).
  rewrite Hrun. simpl in Htype. now rewrite Htype.
Defined.
